(** * install.py: a scaffolding installer and its specification

    The program under study is a single Python script.  Its [main] checks
    for a [.git] entry in the current working directory, possibly asks the
    user for confirmation, and then creates a fixed directory tree, writes
    a fixed table of literal files, writes a table of placeholder files
    rendered from a template, and writes two more documents.

    The embedding is shallow.  Python text is a [string] holding the UTF-8
    bytes of the text (the encoding [write_text] uses under a UTF-8 locale,
    with POSIX newlines).  The working directory is a tree of finite maps.
    The script's effects -- the file system, standard input, and the
    sequence of calls it makes -- are threaded through a small state and
    exception monad. *)

From Stdlib Require Import Ascii ZArith.
From stdpp Require Import gmap strings list fin_maps.

#[local] Set Warnings "-register-all".

(** ** Python string operations used by the script *)

Module PyStr.

(** [str.lower] on the ASCII letters.  Text outside ASCII is left as it
    is: Python would lowercase letters there too, but the script only
    compares the result with [y], and the only code points that lowercase
    to [y] are [y] and [Y]. *)
Definition lower_ascii (c : ascii) : ascii :=
  let n := Ascii.nat_of_ascii c in
  if (65 <=? n) && (n <=? 90) then Ascii.ascii_of_nat (n + 32) else c.

Fixpoint lower (s : string) : string :=
  match s with
  | EmptyString => EmptyString
  | String c s' => String (lower_ascii c) (lower s')
  end.

(** [s * n] *)
Fixpoint mul (s : string) (n : nat) : string :=
  match n with
  | O => EmptyString
  | S n' => s +:+ mul s n'
  end.

(** [s.center(width)], padding with spaces as CPython does: the left
    margin gets the extra space when both the margin and the width are
    odd. *)
Definition center (s : string) (width : nat) : string :=
  let len := String.length s in
  if width <=? len then s
  else
    let marg := width - len in
    let left := marg / 2 + Nat.land (Nat.land marg width) 1 in
    mul " " left +:+ s +:+ mul " " (marg - left).

(** [s.split(sep)] for a one-character separator. *)
Fixpoint split (sep : ascii) (s : string) : list string :=
  match s with
  | EmptyString => [EmptyString]
  | String c s' =>
      if Ascii.eqb c sep then EmptyString :: split sep s'
      else match split sep s' with
           | w :: ws => String c w :: ws
           | [] => [String c EmptyString]
           end
  end.

(** [s.startswith(pre)] *)
Fixpoint startswith (pre s : string) : bool :=
  match pre, s with
  | EmptyString, _ => true
  | String a pre', String b s' => Ascii.eqb a b && startswith pre' s'
  | String _ _, EmptyString => false
  end.

(** [s.endswith(suf)] *)
Fixpoint endswith (suf s : string) : bool :=
  String.eqb suf s ||
  match s with
  | EmptyString => false
  | String _ s' => endswith suf s'
  end.

(** [sub in s] *)
Fixpoint contains (sub s : string) : bool :=
  startswith sub s ||
  match s with
  | EmptyString => false
  | String _ s' => contains sub s'
  end.

(** The number of positions of [s] at which [sub] starts. *)
Fixpoint occurrences (sub s : string) : nat :=
  (if startswith sub s then 1 else 0) +
  match s with
  | EmptyString => 0
  | String _ s' => occurrences sub s'
  end.

End PyStr.

(** ** The working directory as a tree *)

(** A directory entry is a regular file with its contents or a directory
    with its children.  Symbolic links, permissions and capacity are not
    modelled: the only failures are those caused by the kind of an entry
    that is already there. *)
Inductive node :=
  | File (content : string)
  | Dir (children : gmap string node).

(** What a look-up of a path reports: the kind of the entry and, for a
    regular file, what it holds. *)
Inductive entry :=
  | EFile (content : string)
  | EDir.

(** The exceptions the modelled calls can raise. *)
Inductive exn :=
  | FileExistsError
  | FileNotFoundError
  | NotADirectoryError
  | IsADirectoryError
  | EOFError.

#[global] Instance entry_eq_dec : EqDecision entry.
Proof. solve_decision. Defined.
#[global] Instance exn_eq_dec : EqDecision exn.
Proof. solve_decision. Defined.

(** A relative path is the list of its components, outermost first;
    [[]] is the working directory itself. *)
Definition path : Type := list string.

(** [pathlib.Path(s)] for a relative [s]: the components between slashes,
    with empty components and [.] dropped.  A component [..] is kept as a
    name, as pathlib keeps it; the script has none. *)
Definition Path (s : string) : path :=
  filter (λ c, c ≠ "" ∧ c ≠ ".") (PyStr.split "/" s).

(** [path.parent]; the parent of the working directory is itself. *)
Definition parent (p : path) : path := removelast p.

(** The entry found by walking [p] down from the directory with children
    [d]. *)
Fixpoint stat (d : gmap string node) (p : path) : option entry :=
  match p with
  | [] => Some EDir
  | c :: p' =>
      match d !! c with
      | None => None
      | Some (File s) => match p' with [] => Some (EFile s) | _ :: _ => None end
      | Some (Dir ch) => stat ch p'
      end
  end.

(** [path.exists()], [path.is_dir()] and [path.read_text()]. *)
Definition exists_ (d : gmap string node) (p : path) : bool :=
  bool_decide (is_Some (stat d p)).

Definition is_dir (d : gmap string node) (p : path) : bool :=
  bool_decide (stat d p = Some EDir).

Definition read_text (d : gmap string node) (p : path) : option string :=
  match stat d p with
  | Some (EFile s) => Some s
  | _ => None
  end.

(** [path.mkdir(parents=True, exist_ok=True)]: every missing directory on
    the way to [p] is created; directories already there are kept with
    their contents; a regular file in the way raises ([FileExistsError]
    when it sits at [p] itself, [NotADirectoryError] when it is an
    ancestor) and nothing is created. *)
Fixpoint makedirs (d : gmap string node) (p : path) : exn + gmap string node :=
  match p with
  | [] => inr d
  | c :: p' =>
      match d !! c with
      | Some (File _) =>
          inl (match p' with [] => FileExistsError | _ :: _ => NotADirectoryError end)
      | Some (Dir ch) =>
          match makedirs ch p' with
          | inl e => inl e
          | inr ch' => inr (<[c := Dir ch']> d)
          end
      | None =>
          match makedirs ∅ p' with
          | inl e => inl e
          | inr ch' => inr (<[c := Dir ch']> d)
          end
      end
  end.

(** [open(path, 'w').write(content)]: the parent must be a directory and
    the path must not be one; a regular file already there is truncated
    and rewritten. *)
Fixpoint write_at (d : gmap string node) (p : path) (content : string)
  : exn + gmap string node :=
  match p with
  | [] => inl IsADirectoryError
  | c :: p' =>
      match p' with
      | [] =>
          match d !! c with
          | Some (Dir _) => inl IsADirectoryError
          | _ => inr (<[c := File content]> d)
          end
      | _ :: _ =>
          match d !! c with
          | Some (Dir ch) =>
              match write_at ch p' content with
              | inl e => inl e
              | inr ch' => inr (<[c := Dir ch']> d)
              end
          | Some (File _) => inl NotADirectoryError
          | None => inl FileNotFoundError
          end
      end
  end.

(** ** Effects *)

(** The calls the script makes that reach outside it, in the order made. *)
Inductive event :=
  | EvPrint (line : string)
  | EvInput (prompt : string)
  | EvMkdir (p : path)
  | EvWriteText (p : path) (content : string).

#[global] Instance event_eq_dec : EqDecision event.
Proof. solve_decision. Defined.

(** The state a run acts on: the tree below the working directory, the
    lines still to be read from standard input, and the calls made so
    far. *)
Record world := World {
  fs : gmap string node;
  stdin : list string;
  trace : list event;
}.

(** How a computation ends: with a value, with an exception that nothing
    in the script catches, or in [sys.exit]. *)
Inductive outcome (A : Type) :=
  | Ret (a : A)
  | Raise (e : exn)
  | Exit (status : Z).
Arguments Ret {A} a.
Arguments Raise {A} e.
Arguments Exit {A} status.

Definition M (A : Type) : Type := world → outcome A * world.

#[global] Instance M_ret : MRet M := λ A a w, (Ret a, w).

#[global] Instance M_bind : MBind M := λ A B k m w,
  match m w with
  | (Ret a, w') => k a w'
  | (Raise e, w') => (Raise e, w')
  | (Exit n, w') => (Exit n, w')
  end.

(** [for x in xs: body(x)] *)
Fixpoint for_ {A} (xs : list A) (body : A → M unit) : M unit :=
  match xs with
  | [] => mret tt
  | x :: xs' => body x ;; for_ xs' body
  end.

(** The exit status of the process whose entry point ended with [o]: an
    uncaught exception ends the interpreter with status 1. *)
Definition exit_status {A} (o : outcome A) : Z :=
  match o with
  | Ret _ => 0
  | Raise _ => 1
  | Exit n => n
  end.

Definition log (e : event) (w : world) : world :=
  {| fs := fs w; stdin := stdin w; trace := trace w ++ [e] |}.

(** [print(line)] *)
Definition print (line : string) : M unit :=
  λ w, (Ret tt, log (EvPrint line) w).

(** [input(prompt)]: the next line of standard input without its newline;
    [EOFError] when there is none. *)
Definition input (prompt : string) : M string :=
  λ w,
    let w' := log (EvInput prompt) w in
    match stdin w' with
    | [] => (Raise EOFError, w')
    | line :: rest => (Ret line, {| fs := fs w'; stdin := rest; trace := trace w' |})
    end.

(** [sys.exit(status)] *)
Definition sys_exit {A} (status : Z) : M A :=
  λ w, (Exit status, w).

(** [path.exists()] *)
Definition Path_exists (p : path) : M bool :=
  λ w, (Ret (exists_ (fs w) p), w).

(** [path.mkdir(parents=True, exist_ok=True)] *)
Definition Path_mkdir (p : path) : M unit :=
  λ w,
    let w' := log (EvMkdir p) w in
    match makedirs (fs w') p with
    | inl e => (Raise e, w')
    | inr d => (Ret tt, {| fs := d; stdin := stdin w'; trace := trace w' |})
    end.

(** [path.write_text(content)] *)
Definition Path_write_text (p : path) (content : string) : M unit :=
  λ w,
    let w' := log (EvWriteText p content) w in
    match write_at (fs w') p content with
    | inl e => (Raise e, w')
    | inr d => (Ret tt, {| fs := d; stdin := stdin w'; trace := trace w' |})
    end.

(** ** The script *)

Definition dquote : string := String "034"%char EmptyString.
Definition newline : string := String "010"%char EmptyString.
Definition escape : string := String "027"%char EmptyString.

(** Color codes for pretty output. *)
Module Colors.
Definition HEADER : string := escape +:+ "[95m".
Definition OKBLUE : string := escape +:+ "[94m".
Definition OKCYAN : string := escape +:+ "[96m".
Definition OKGREEN : string := escape +:+ "[92m".
Definition WARNING : string := escape +:+ "[93m".
Definition FAIL : string := escape +:+ "[91m".
Definition ENDC : string := escape +:+ "[0m".
Definition BOLD : string := escape +:+ "[1m".
End Colors.

Definition print_header (text : string) : M unit :=
  print (newline +:+ Colors.HEADER +:+ Colors.BOLD +:+ PyStr.mul "=" 60 +:+ Colors.ENDC) ;;
  print (Colors.HEADER +:+ Colors.BOLD +:+ PyStr.center text 60 +:+ Colors.ENDC) ;;
  print (Colors.HEADER +:+ Colors.BOLD +:+ PyStr.mul "=" 60 +:+ Colors.ENDC +:+ newline).

Definition print_success (text : string) : M unit :=
  print (Colors.OKGREEN +:+ "âœ“ " +:+ text +:+ Colors.ENDC).

Definition print_info (text : string) : M unit :=
  print (Colors.OKCYAN +:+ "â„¹ " +:+ text +:+ Colors.ENDC).

Definition print_warning (text : string) : M unit :=
  print (Colors.WARNING +:+ "âš  " +:+ text +:+ Colors.ENDC).

Definition print_error (text : string) : M unit :=
  print (Colors.FAIL +:+ "âœ— " +:+ text +:+ Colors.ENDC).

(** All file contents embedded directly: the dictionary [FILES], as the
    list of its items in insertion order (the order [FILES.items()]
    yields). *)

(** The value of [FILES['README.md']] (install.py lines 49-137). *)
Definition README_md : string :=
"# AI Infrastructure Projects

Complete production-ready AI infrastructure with Kubernetes, Terraform, PyTorch, and modern MLOps tools.

## ğŸš€ Quick Start

```bash
# One-command installation
curl -sSL https://raw.githubusercontent.com/YOUR_USERNAME/ai-infrastructure-projects/main/install.py | python3

# Or clone and run
git clone https://github.com/YOUR_USERNAME/ai-infrastructure-projects
cd ai-infrastructure-projects
./scripts/quick-start.sh
```

## ğŸ“¦ What's Included

- âœ… **Multi-Cloud Kubernetes**: AWS EKS + GCP GKE clusters with Terraform
- âœ… **Distributed Training**: PyTorch DDP on GPU clusters  
- âœ… **Inference API**: FastAPI service with auto-scaling
- âœ… **Monitoring Stack**: Prometheus + Grafana + Loki + custom GPU metrics
- âœ… **CI/CD Pipeline**: GitHub Actions + ArgoCD GitOps
- âœ… **Service Mesh**: Istio with canary deployments (optional)

## ğŸ’° Cost

**Estimated: $70-140/month** with optimizations
- Free tier eligible for 12 months (AWS) / 90 days (GCP)
- Auto-scaling to minimize costs
- Spot/preemptible instances support

## ğŸ“š Documentation

- [Complete Setup Guide](docs/SETUP_GUIDE.md)
- [Quick Reference](docs/QUICK_REFERENCE.md)
- [Architecture Overview](docs/ARCHITECTURE.md)
- [Troubleshooting](docs/TROUBLESHOOTING.md)

## ğŸ¯ Next Steps

1. Configure cloud credentials: `aws configure` and `gcloud auth login`
2. Deploy: `./scripts/quick-start.sh`
3. Access services: See port-forward commands in Quick Reference

## ğŸ“Š Architecture

```
â”Œâ”€â”€â”€â”€â”€â”€â”€â”€â”€â”€â”€â”€â”€â”€â”€â”€â”€â”€â”€â”€â”€â”€â”€â”€â”€â”€â”€â”€â”€â”€â”€â”€â”€â”€â”€â”€â”€â”€â”€â”€â”€â”€â”€â”€â”€â”€â”€â”€â”€â”€â”€â”€â”€â”€â”€â”€â”€â”
â”‚                     Load Balancer                        â”‚
â””â”€â”€â”€â”€â”€â”€â”€â”€â”€â”€â”€â”€â”€â”€â”€â”€â”€â”€â”€â”€â”¬â”€â”€â”€â”€â”€â”€â”€â”€â”€â”€â”€â”€â”€â”€â”€â”€â”€â”€â”€â”€â”€â”€â”€â”€â”€â”€â”€â”€â”€â”€â”€â”€â”€â”€â”€â”€â”˜
                     â”‚
        â”Œâ”€â”€â”€â”€â”€â”€â”€â”€â”€â”€â”€â”€â”´â”€â”€â”€â”€â”€â”€â”€â”€â”€â”€â”€â”€â”
        â”‚                         â”‚
   â”Œâ”€â”€â”€â”€â–¼â”€â”€â”€â”€â”€â”            â”Œâ”€â”€â”€â”€â”€â–¼â”€â”€â”€â”€â”
   â”‚   AWS    â”‚            â”‚   GCP    â”‚
   â”‚   EKS    â”‚            â”‚   GKE    â”‚
   â””â”€â”€â”€â”€â”¬â”€â”€â”€â”€â”€â”˜            â””â”€â”€â”€â”€â”€â”¬â”€â”€â”€â”€â”˜
        â”‚                         â”‚
   â”Œâ”€â”€â”€â”€â–¼â”€â”€â”€â”€â”€â”€â”€â”€â”€â”€â”€â”€â”€â”€â”€â”€â”€â”€â”€â”€â”€â”€â”¬â”€â”€â–¼â”€â”€â”€â”€â”
   â”‚  Inference API (FastAPI)  â”‚  GPU  â”‚
   â”‚  + Redis Cache            â”‚ Nodes â”‚
   â”œâ”€â”€â”€â”€â”€â”€â”€â”€â”€â”€â”€â”€â”€â”€â”€â”€â”€â”€â”€â”€â”€â”€â”€â”€â”€â”€â”€â”´â”€â”€â”€â”€â”€â”€â”€â”¤
   â”‚    Monitoring (Prometheus)        â”‚
   â”‚    Logging (Loki)                 â”‚
   â”‚    Dashboards (Grafana)           â”‚
   â””â”€â”€â”€â”€â”€â”€â”€â”€â”€â”€â”€â”€â”€â”€â”€â”€â”€â”€â”€â”€â”€â”€â”€â”€â”€â”€â”€â”€â”€â”€â”€â”€â”€â”€â”€â”˜
```

## ğŸ¤ Contributing

Contributions welcome! Please open an issue or submit a PR.

## ğŸ“ License

MIT License - See LICENSE file

## ğŸ™ Acknowledgments

Built with modern cloud-native technologies:
- Kubernetes, Docker, Terraform
- PyTorch, FastAPI, Redis
- Prometheus, Grafana, ArgoCD
- AWS, GCP, GitHub Actions

---

**â­ Star this repo if it helped you!**
".

(** The value of [FILES['.gitignore']] (install.py lines 139-197). *)
Definition gitignore : string :=
"# Terraform
*.tfstate
*.tfstate.*
.terraform/
.terraform.lock.hcl
terraform.tfplan
crash.log
*.tfvars.json
override.tf
*_override.tf

# Python
__pycache__/
*.py[cod]
*.so
.Python
venv/
env/
*.egg-info/
.pytest_cache/
.coverage
htmlcov/

# Secrets & Credentials
*.pem
*.key
*-key.json
secrets.yaml
.env
.env.local
credentials.json

# IDE
.vscode/
.idea/
*.swp
*.swo
*~
.DS_Store

# Kubernetes
*.kubeconfig
kubeconfig
.kube/

# Logs
*.log
logs/

# Build artifacts
dist/
build/
*.egg

# Temporary
tmp/
temp/
*.tmp
".

(** The value of [FILES['LICENSE']] (install.py lines 199-220). *)
Definition LICENSE : string :=
"MIT License

Copyright (c) 2025 AI Infrastructure Projects

Permission is hereby granted, free of charge, to any person obtaining a copy
of this software and associated documentation files (the " +:+ dquote +:+ "Software" +:+ dquote +:+ "), to deal
in the Software without restriction, including without limitation the rights
to use, copy, modify, merge, publish, distribute, sublicense, and/or sell
copies of the Software, and to permit persons to whom the Software is
furnished to do so, subject to the following conditions:

The above copyright notice and this permission notice shall be included in all
copies or substantial portions of the Software.

THE SOFTWARE IS PROVIDED " +:+ dquote +:+ "AS IS" +:+ dquote +:+ ", WITHOUT WARRANTY OF ANY KIND, EXPRESS OR
IMPLIED, INCLUDING BUT NOT LIMITED TO THE WARRANTIES OF MERCHANTABILITY,
FITNESS FOR A PARTICULAR PURPOSE AND NONINFRINGEMENT. IN NO EVENT SHALL THE
AUTHORS OR COPYRIGHT HOLDERS BE LIABLE FOR ANY CLAIM, DAMAGES OR OTHER
LIABILITY, WHETHER IN AN ACTION OF CONTRACT, TORT OR OTHERWISE, ARISING FROM,
OUT OF OR IN CONNECTION WITH THE SOFTWARE OR THE USE OR OTHER DEALINGS IN THE
SOFTWARE.
".

(** The value of [FILES['docs/ARCHITECTURE.md']] (install.py lines 222-310). *)
Definition ARCHITECTURE_md : string :=
"# Architecture Overview

## System Design

The AI infrastructure is built on a multi-cloud, microservices architecture designed for:
- **Scalability**: Auto-scaling inference and training workloads
- **Reliability**: Multi-region deployment with failover
- **Observability**: Comprehensive monitoring and logging
- **Cost-efficiency**: Spot instances and auto-scaling

## Components

### 1. Infrastructure Layer (Terraform)
- **AWS EKS**: Primary Kubernetes cluster
- **GCP GKE**: Secondary cluster for geo-distribution
- **Networking**: VPCs, subnets, load balancers
- **Storage**: S3/GCS for models and data

### 2. Compute Layer (Kubernetes)
- **Control Plane**: Managed by cloud providers
- **Worker Nodes**: CPU nodes for general workloads
- **GPU Nodes**: For training and GPU inference
- **Auto-scaling**: HPA and cluster autoscaler

### 3. Application Layer
- **Training**: Distributed PyTorch jobs
- **Inference**: FastAPI REST API
- **Caching**: Redis for prediction caching
- **Queue**: (Optional) Celery for async tasks

### 4. Observability Layer
- **Metrics**: Prometheus + custom exporters
- **Visualization**: Grafana dashboards
- **Logging**: Loki for log aggregation
- **Alerting**: AlertManager + integrations

### 5. CI/CD Layer
- **Source Control**: GitHub
- **CI Pipeline**: GitHub Actions
- **CD/GitOps**: ArgoCD
- **Service Mesh**: Istio (optional)

## Data Flow

### Training Flow
```
Developer â†’ Git Push â†’ GitHub Actions â†’ Build Container â†’ 
ECR/GCR â†’ Kubernetes Job â†’ GPU Nodes â†’ Train Model â†’ 
Save to S3/GCS â†’ Update Model Registry
```

### Inference Flow
```
User Request â†’ Load Balancer â†’ Inference API â†’ 
Check Redis Cache â†’ (if miss) Load Model â†’ 
Run Inference â†’ Cache Result â†’ Return Prediction
```

### Monitoring Flow
```
All Services â†’ Prometheus Scrape â†’ Store Metrics â†’
Grafana Query â†’ Display Dashboards â†’ 
AlertManager â†’ Slack/Email Notifications
```

## Security

- **Network**: Network policies, security groups
- **Authentication**: RBAC, service accounts
- **Secrets**: Kubernetes secrets, AWS Secrets Manager
- **Encryption**: At-rest and in-transit
- **Scanning**: Container image vulnerability scanning

## High Availability

- **Multi-AZ**: Kubernetes nodes across availability zones
- **Multi-Region**: Deploy to multiple cloud regions
- **Health Checks**: Liveness and readiness probes
- **Auto-recovery**: Kubernetes self-healing
- **Backups**: Regular snapshots of state

## Scalability

- **Horizontal**: HPA for pods, cluster autoscaler for nodes
- **Vertical**: Resource requests/limits tuning
- **Caching**: Redis for frequently accessed predictions
- **Load Balancing**: Cloud load balancers + Istio
- **Database**: (If needed) Managed databases with read replicas
".

(** The value of [FILES['docs/TROUBLESHOOTING.md']] (install.py lines 312-537). *)
Definition TROUBLESHOOTING_md : string :=
"# Troubleshooting Guide

## Common Issues

### 1. Cannot Connect to Kubernetes Cluster

**Symptoms:**
```
Unable to connect to the server: dial tcp: lookup ... no such host
```

**Solutions:**
```bash
# Update kubeconfig for AWS
aws eks update-kubeconfig --region us-west-2 --name ai-infrastructure-eks

# Update kubeconfig for GCP  
gcloud container clusters get-credentials ai-infrastructure-gke \
  --zone us-central1-a --project YOUR_PROJECT

# Verify connection
kubectl get nodes
```

### 2. Pods Stuck in Pending State

**Symptoms:**
```
NAME                    READY   STATUS    RESTARTS   AGE
ai-inference-xxx        0/1     Pending   0          5m
```

**Diagnosis:**
```bash
kubectl describe pod <pod-name> -n <namespace>
```

**Common Causes:**
- Insufficient resources
- Node selector mismatch
- PVC not bound

**Solutions:**
```bash
# Check node resources
kubectl top nodes

# Check node labels
kubectl get nodes --show-labels

# Scale cluster if needed
# (Cluster autoscaler should do this automatically)
```

### 3. Image Pull Errors

**Symptoms:**
```
Failed to pull image " +:+ dquote +:+ "..." +:+ dquote +:+ ": rpc error: code = Unknown
```

**Solutions:**
```bash
# Check image exists
docker pull <image>

# Update image pull secrets
kubectl create secret docker-registry regcred \
  --docker-server=<registry> \
  --docker-username=<username> \
  --docker-password=<password>

# Verify secret
kubectl get secrets
```

### 4. Terraform State Lock

**Symptoms:**
```
Error: Error acquiring the state lock
```

**Solutions:**
```bash
# Force unlock (use with caution)
terraform force-unlock <lock-id>

# Or remove lock file
rm -rf .terraform/
terraform init
```

### 5. High Cloud Costs

**Diagnosis:**
```bash
# Check resource usage
kubectl top nodes
kubectl top pods --all-namespaces

# List all resources
kubectl get all --all-namespaces
```

**Solutions:**
```bash
# Scale down inference
kubectl scale deployment ai-inference --replicas=1 -n production

# Delete GPU nodes when not training
kubectl delete nodes -l node-pool=gpu

# Destroy development resources
cd terraform/aws && terraform destroy
```

### 6. Monitoring Not Working

**Symptoms:**
- Grafana shows no data
- Prometheus targets down

**Solutions:**
```bash
# Check Prometheus pods
kubectl get pods -n monitoring

# Check Prometheus targets
kubectl port-forward svc/prometheus-kube-prometheus-prometheus 9090:9090 -n monitoring
# Visit http://localhost:9090/targets

# Restart Prometheus
kubectl rollout restart statefulset prometheus-kube-prometheus-prometheus -n monitoring

# Check service discovery
kubectl get servicemonitors -n monitoring
```

### 7. Training Jobs Failing

**Diagnosis:**
```bash
# Check job status
kubectl get jobs

# View job logs
kubectl logs job/<job-name>

# Describe job
kubectl describe job <job-name>
```

**Common Issues:**
- OOM (Out of Memory)
- GPU not available
- Network connectivity

**Solutions:**
```bash
# Increase memory limits
# Edit kubernetes/training-job.yaml

# Check GPU availability
kubectl get nodes -l accelerator=nvidia

# Check GPU plugin
kubectl get daemonset nvidia-device-plugin-daemonset -n kube-system
```

### 8. ArgoCD Sync Issues

**Symptoms:**
- Application out of sync
- Sync fails with errors

**Solutions:**
```bash
# Manual sync
kubectl port-forward svc/argocd-server 8080:443 -n argocd
# Visit UI and click " +:+ dquote +:+ "Sync" +:+ dquote +:+ "

# Or via CLI
argocd app sync <app-name>

# Hard refresh
argocd app get <app-name> --hard-refresh

# Check application health
argocd app get <app-name>
```

## Getting Help

1. **Check logs**: `kubectl logs <pod-name> -n <namespace>`
2. **Describe resources**: `kubectl describe <resource> <name> -n <namespace>`
3. **Check events**: `kubectl get events -n <namespace> --sort-by='.metadata.creationTimestamp'`
4. **Search issues**: Check GitHub issues for similar problems
5. **Ask community**: Kubernetes Slack, Stack Overflow

## Debug Commands

```bash
# Get all resources
kubectl get all --all-namespaces

# Check pod details
kubectl get pod <pod-name> -o yaml -n <namespace>

# Execute shell in pod
kubectl exec -it <pod-name> -n <namespace> -- /bin/bash

# Check resource usage
kubectl top pods -n <namespace>
kubectl top nodes

# View recent events
kubectl get events --sort-by='.lastTimestamp' -n <namespace>

# Test DNS
kubectl run -it --rm debug --image=busybox --restart=Never -- nslookup kubernetes

# Test connectivity
kubectl run -it --rm debug --image=curlimages/curl --restart=Never -- curl <service-url>
```
".

Definition FILES : list (string * string) :=
  [("README.md", README_md);
   (".gitignore", gitignore);
   ("LICENSE", LICENSE);
   ("docs/ARCHITECTURE.md", ARCHITECTURE_md);
   ("docs/TROUBLESHOOTING.md", TROUBLESHOOTING_md)].

(** Create a file with content. *)
Definition create_file (filepath content : string) : M unit :=
  let path := Path filepath in
  Path_mkdir (parent path) ;;
  Path_write_text path content ;;
  print_success ("Created " +:+ filepath).

Definition directories : list string :=
  ["terraform/aws"; "terraform/gcp";
   "kubernetes/rbac"; "kubernetes/network-policies";
   "monitoring/prometheus"; "monitoring/loki"; "monitoring/gpu-exporter"; "monitoring/deployment";
   "inference/app"; "training/src"; "training/docker"; "training/scripts";
   "istio"; "argocd/applications"; "argocd/projects";
   ".github/workflows"; "scripts"; "tests"; "docs"].

(** Create all necessary directories. *)
Definition create_directory_structure : M unit :=
  for_ directories (λ directory, Path_mkdir (Path directory)) ;;
  print_success "Created directory structure".

(** A formatted string literal with one variable: literal text and
    replacement fields for that variable. *)
Inductive fpart :=
  | Lit (text : string)
  | Field.

Fixpoint format (parts : list fpart) (value : string) : string :=
  match parts with
  | [] => EmptyString
  | Lit text :: parts' => text +:+ format parts' value
  | Field :: parts' => value +:+ format parts' value
  end.

(** The formatted string of [create_placeholder_note], whose replacement
    fields all hold [description]. *)
Definition placeholder_template : list fpart :=
  [Lit ("# ");
   Field;
   Lit ("

## âš ï¸ IMPORTANT: Copy Content from Artifacts

This file needs content from the Claude artifacts. Please copy the corresponding content:

1. Scroll up in your Claude conversation
2. Find the artifact titled: " +:+ dquote);
   Field;
   Lit (dquote +:+ "
3. Copy the entire content
4. Paste it into this file

## File Purpose

");
   Field;
   Lit ("

## What to do after copying:

1. Save this file
2. Continue with the next file in docs/SETUP_INSTRUCTIONS.md
3. Once all files are copied, run: ./scripts/quick-start.sh

---
Generated by AI Infrastructure Installer
")].

(** Create a placeholder file with instructions. *)
Definition create_placeholder_note (filename description : string) : M unit :=
  let content := format placeholder_template description in
  create_file filename content.

(** The locals [placeholders], [setup_instructions] and [quick_ref] of
    [main]. *)
Definition placeholders : list (string * string) :=
  [("terraform/aws/main.tf", "Project A - AWS Terraform Complete Implementation");
   ("terraform/aws/variables.tf", "Project A - Terraform Variables");
   ("terraform/gcp/main.tf", "Project A - GCP Terraform Complete Implementation");
   ("terraform/gcp/variables.tf", "Project A - GCP Variables and Config");
   ("training/src/train_distributed.py", "Project B - Complete Distributed Training Implementation");
   ("training/docker/Dockerfile", "Project B - Docker and Kubernetes Configuration (Dockerfile section)");
   ("kubernetes/training-job.yaml", "Project B - Docker and Kubernetes Configuration (training-job.yaml section)");
   ("monitoring/prometheus/values.yaml", "Project C - Complete Monitoring Stack (prometheus section)");
   ("monitoring/gpu-exporter/gpu_metrics.py", "Project C - Complete Monitoring Stack (gpu_metrics.py section)");
   ("inference/app/main.py", "Project D - Complete AI Inference Platform");
   ("inference/Dockerfile", "Project D - Complete AI Inference Platform (Dockerfile section)");
   ("kubernetes/inference-deployment.yaml", "Project D - Complete AI Inference Platform (deployment.yaml section)");
   (".github/workflows/ci-cd-pipeline.yaml", "Complete CI/CD Pipeline and GitOps Configuration");
   ("scripts/quick-start.sh", "Automated Deployment Scripts and Documentation (quick-start.sh section)");
   ("scripts/setup-local-dev.sh", "Automated Deployment Scripts and Documentation (setup-local-dev.sh section)")].

Definition setup_instructions : string :=
"# Setup Instructions

## âœ… Step 1: Installation Complete!

The project structure has been created. Now you need to copy content from the Claude artifacts.

## ğŸ“‹ Step 2: Copy Artifact Contents

Each placeholder file contains instructions. Go through them in this order:

### Infrastructure (Terraform)
1. `terraform/aws/main.tf`
2. `terraform/aws/variables.tf`  
3. `terraform/gcp/main.tf`
4. `terraform/gcp/variables.tf`

### Training Platform  
5. `training/src/train_distributed.py`
6. `training/docker/Dockerfile`
7. `kubernetes/training-job.yaml`

### Monitoring
8. `monitoring/prometheus/values.yaml`
9. `monitoring/gpu-exporter/gpu_metrics.py`

### Inference API
10. `inference/app/main.py`
11. `inference/Dockerfile`
12. `kubernetes/inference-deployment.yaml`

### CI/CD & GitOps
13. `.github/workflows/ci-cd-pipeline.yaml`
14. `scripts/quick-start.sh`
15. `scripts/setup-local-dev.sh`

## ğŸ”§ Step 3: Configure

Edit these files with your values:
```bash
# AWS settings
nano terraform/aws/terraform.tfvars

# GCP settings  
nano terraform/gcp/terraform.tfvars
```

## âš™ï¸ Step 4: Setup Cloud Access

```bash
# AWS
aws configure

# GCP
gcloud auth login
gcloud config set project YOUR_PROJECT_ID
```

## ğŸš€ Step 5: Deploy!

```bash
# Make scripts executable
chmod +x scripts/*.sh

# Run deployment
./scripts/quick-start.sh
```

## ğŸ“š Need Help?

- See `docs/TROUBLESHOOTING.md` for common issues
- See `docs/ARCHITECTURE.md` for system overview  
- See `docs/QUICK_REFERENCE.md` for commands

## ğŸ’¡ Tips

- Start with one cloud provider (AWS or GCP) to minimize complexity
- Use free tier accounts to minimize costs
- Test locally with minikube before deploying to cloud
- Read all documentation before starting

---

**Questions? Open an issue on GitHub!**
".

Definition quick_ref : string :=
"# Quick Reference

## ğŸš€ Deployment
```bash
./scripts/quick-start.sh                    # Full deployment
./scripts/quick-start.sh infra              # Infrastructure only
./scripts/quick-start.sh monitoring         # Monitoring only
./scripts/quick-start.sh apps               # Applications only
```

## ğŸ” Kubernetes Commands
```bash
# Get resources
kubectl get pods --all-namespaces
kubectl get nodes
kubectl get services -n production

# Logs
kubectl logs -f deployment/ai-inference -n production
kubectl logs -f job/distributed-ai-training

# Scale
kubectl scale deployment ai-inference --replicas=5 -n production

# Port forward
kubectl port-forward svc/ai-inference-service 8000:80 -n production
kubectl port-forward svc/prometheus-grafana 3000:80 -n monitoring
```

## ğŸ“Š Access Services
```bash
# Grafana (monitoring)
kubectl port-forward svc/prometheus-grafana 3000:80 -n monitoring
# http://localhost:3000 (admin/admin123)

# AI Inference API
kubectl port-forward svc/ai-inference-service 8000:80 -n production  
# http://localhost:8000/docs

# Prometheus
kubectl port-forward svc/prometheus-kube-prometheus-prometheus 9090:9090 -n monitoring
# http://localhost:9090

# ArgoCD
kubectl port-forward svc/argocd-server 8080:443 -n argocd
# https://localhost:8080
```

## ğŸ’° Cost Management
```bash
# Scale down
kubectl scale deployment --all --replicas=0 -n production

# Destroy
cd terraform/aws && terraform destroy
cd terraform/gcp && terraform destroy
```

## ğŸ”§ Troubleshooting
```bash
# Check pod status
kubectl describe pod <pod-name> -n <namespace>

# View events
kubectl get events --sort-by='.metadata.creationTimestamp' -n <namespace>

# Resource usage
kubectl top nodes
kubectl top pods --all-namespaces

# Update kubeconfig
aws eks update-kubeconfig --region us-west-2 --name ai-infrastructure-eks
gcloud container clusters get-credentials ai-infrastructure-gke --zone us-central1-a
```
".

(** Main installer function. *)
Definition main : M unit :=
  print_header "AI Infrastructure Projects Installer" ;;
  git ← Path_exists (Path ".git");
  (if negb git then
     print_warning "Not in a git repository. Initialize one first:" ;;
     print_info "  git init" ;;
     print_info "  git remote add origin https://github.com/YOUR_USERNAME/ai-infrastructure-projects" ;;
     print "" ;;
     response ← input "Continue anyway? (y/n): ";
     if negb (String.eqb (PyStr.lower response) "y") then sys_exit 0 else mret tt
   else mret tt) ;;
  print_info "Creating project structure..." ;;
  create_directory_structure ;;
  print "" ;;
  print_info "Creating essential files..." ;;
  for_ FILES (λ '(filepath, content), create_file filepath content) ;;
  print "" ;;
  print_info "Creating placeholder files with instructions..." ;;
  for_ placeholders (λ '(filepath, description), create_placeholder_note filepath description) ;;
  print "" ;;
  create_file "docs/SETUP_INSTRUCTIONS.md" setup_instructions ;;
  create_file "docs/QUICK_REFERENCE.md" quick_ref ;;
  print "" ;;
  print_header "Installation Complete!" ;;
  print (Colors.OKGREEN +:+ "Next steps:" +:+ Colors.ENDC) ;;
  print ("  1. Read: " +:+ Colors.BOLD +:+ "docs/SETUP_INSTRUCTIONS.md" +:+ Colors.ENDC) ;;
  print "  2. Copy artifact contents into placeholder files" ;;
  print "  3. Configure: terraform/*/terraform.tfvars" ;;
  print "  4. Deploy: ./scripts/quick-start.sh" ;;
  print "" ;;
  print (Colors.OKCYAN +:+ "Documentation:" +:+ Colors.ENDC) ;;
  print "  â€¢ Setup Guide: docs/SETUP_INSTRUCTIONS.md" ;;
  print "  â€¢ Quick Reference: docs/QUICK_REFERENCE.md" ;;
  print "  â€¢ Architecture: docs/ARCHITECTURE.md" ;;
  print "  â€¢ Troubleshooting: docs/TROUBLESHOOTING.md" ;;
  print "" ;;
  print (Colors.WARNING +:+ "âš ï¸  Don't forget to:" +:+ Colors.ENDC) ;;
  print "  â€¢ Copy all artifact contents" ;;
  print "  â€¢ Configure AWS and GCP credentials" ;;
  print "  â€¢ Update terraform.tfvars files" ;;
  print "".

(** ** What a run does to the tree

    The calls of [main] that act on the file system, as data: the loop body
    of [create_directory_structure] and the body of [create_file].  The
    lemmas below show that [main] performs exactly [plan], so that the
    claims about completed runs become statements about [run_ops plan]. *)

Inductive op :=
  | OpMkdir (directory : string)
  | OpCreate (filepath content : string).

Definition run_op (o : op) (d : gmap string node) : exn + gmap string node :=
  match o with
  | OpMkdir directory => makedirs d (Path directory)
  | OpCreate filepath content =>
      match makedirs d (parent (Path filepath)) with
      | inl e => inl e
      | inr d' => write_at d' (Path filepath) content
      end
  end.

Fixpoint run_ops (ops : list op) (d : gmap string node) : exn + gmap string node :=
  match ops with
  | [] => inr d
  | o :: ops' =>
      match run_op o d with
      | inl e => inl e
      | inr d' => run_ops ops' d'
      end
  end.

(** The calls [create_file filepath content] logs, in order. *)
Definition create_events (filepath content : string) : list event :=
  [EvMkdir (parent (Path filepath)); EvWriteText (Path filepath) content].

Definition op_events (o : op) : list event :=
  match o with
  | OpMkdir directory => [EvMkdir (Path directory)]
  | OpCreate filepath content => create_events filepath content
  end.

Definition placeholder_op (item : string * string) : op :=
  OpCreate item.1 (format placeholder_template item.2).

Definition plan : list op :=
  (OpMkdir <$> directories) ++
  ((λ item, OpCreate item.1 item.2) <$> FILES) ++
  (placeholder_op <$> placeholders) ++
  [OpCreate "docs/SETUP_INSTRUCTIONS.md" setup_instructions;
   OpCreate "docs/QUICK_REFERENCE.md" quick_ref].

Definition is_fs_event (e : event) : bool :=
  match e with
  | EvMkdir _ | EvWriteText _ _ => true
  | EvPrint _ | EvInput _ => false
  end.

Definition is_input (e : event) : bool :=
  match e with
  | EvInput _ => true
  | _ => false
  end.

(** The file-system calls of a trace, and its reads of standard input. *)
Definition fs_events (t : list event) : list event := filter is_fs_event t.
Definition inputs (t : list event) : list event := filter is_input t.

(** [performs m ops]: whatever the world, [m] reads no input and makes the
    file-system calls of [ops] in order, stopping at the first one that
    raises; it returns exactly when [run_ops ops] succeeds, and then leaves
    the tree [run_ops ops] computes. *)
Definition performs {A} (m : M A) (ops : list op) : Prop :=
  ∀ w, ∃ t,
    trace (m w).2 = trace w ++ t ∧
    stdin (m w).2 = stdin w ∧
    inputs t = [] ∧
    match run_ops ops (fs w) with
    | inr d =>
        (∃ a, (m w).1 = Ret a) ∧ fs (m w).2 = d ∧ fs_events t = ops ≫= op_events
    | inl e =>
        (m w).1 = Raise e ∧ fs_events t `prefix_of` (ops ≫= op_events)
    end.

(** What the last [OpCreate] on path [p] in [ops] writes there, if any. *)
Fixpoint final_content (ops : list op) (p : path) : option string :=
  match ops with
  | [] => None
  | o :: ops' =>
      match final_content ops' p with
      | Some c => Some c
      | None =>
          match o with
          | OpCreate filepath content =>
              if decide (Path filepath = p) then Some content else None
          | OpMkdir _ => None
          end
      end
  end.

(** No regular file lies on the way to [p]: the condition under which
    [makedirs d p] succeeds. *)
Fixpoint free_for_dir (d : gmap string node) (p : path) : bool :=
  match p with
  | [] => true
  | c :: p' =>
      match d !! c with
      | None => true
      | Some (File _) => false
      | Some (Dir ch) => free_for_dir ch p'
      end
  end.

(** The tree has no entry of the wrong kind where [o] needs one. *)
Definition op_free (d : gmap string node) (o : op) : bool :=
  match o with
  | OpMkdir directory => free_for_dir d (Path directory)
  | OpCreate filepath _ =>
      free_for_dir d (parent (Path filepath)) && negb (is_dir d (Path filepath))
  end.

(** The tree is compatible with the installer's layout: no regular file
    where it wants a directory, no directory where it wants a file. *)
Definition fits (d : gmap string node) : bool := forallb (op_free d) plan.

(** The directory an operation makes sure of, and the file it writes. *)
Definition dir_target (o : op) : path :=
  match o with
  | OpMkdir directory => Path directory
  | OpCreate filepath _ => parent (Path filepath)
  end.

Definition file_target (o : op) : option path :=
  match o with
  | OpMkdir _ => None
  | OpCreate filepath _ => Some (Path filepath)
  end.

(** No path is asked for both as a file and as a directory or an ancestor
    of one. *)
Definition consistent (ops : list op) : bool :=
  forallb (λ f, forallb (λ t, negb (bool_decide (f `prefix_of` t))) (dir_target <$> ops))
          (omap file_target ops).

(** Every [OpCreate] of [ops] is the last one on its path. *)
Definition written_once (ops : list op) : bool :=
  forallb (λ o, match o with
                | OpMkdir _ => true
                | OpCreate filepath content =>
                    bool_decide (final_content ops (Path filepath) = Some content)
                end) ops.

(** [o] would change nothing in [d]. *)
Definition settled (d : gmap string node) (o : op) : Prop :=
  match o with
  | OpMkdir directory => stat d (Path directory) = Some EDir
  | OpCreate filepath content => stat d (Path filepath) = Some (EFile content)
  end.

(** The number of replacement fields of a formatted string. *)
Fixpoint fields (parts : list fpart) : nat :=
  match parts with
  | [] => 0
  | Lit _ :: parts' => fields parts'
  | Field :: parts' => S (fields parts')
  end.

(** ** The confirmation gate *)

Definition prompt : string := "Continue anyway? (y/n): ".

(** There is a [.git] entry in the working directory. *)
Definition has_git (w : world) : bool := exists_ (fs w) (Path ".git").

(** The next line of standard input lowercases to [y]. *)
Definition confirms (w : world) : bool :=
  match stdin w with
  | response :: _ => String.eqb (PyStr.lower response) "y"
  | [] => false
  end.

(** The user answers the prompt, and not with [y] or [Y]. *)
Definition declines (w : world) : bool :=
  match stdin w with
  | response :: _ => negb (String.eqb (PyStr.lower response) "y")
  | [] => false
  end.

(** The run gets past the gate. *)
Definition proceeds (w : world) : bool := has_git w || confirms w.

(** The beginning of [main], up to and including the confirmation gate,
    followed by [rest]: [main] is [gated rest] for the [rest] that
    [main_gated] exhibits. *)
Definition gated (rest : M unit) : M unit :=
  print_header "AI Infrastructure Projects Installer" ;;
  git ← Path_exists (Path ".git");
  (if negb git then
     print_warning "Not in a git repository. Initialize one first:" ;;
     print_info "  git init" ;;
     print_info "  git remote add origin https://github.com/YOUR_USERNAME/ai-infrastructure-projects" ;;
     print "" ;;
     response ← input prompt;
     if negb (String.eqb (PyStr.lower response) "y") then sys_exit 0 else mret tt
   else mret tt) ;;
  rest.

(** The run made the calls of [ops], up to the first that raised. *)
Definition ran (ops : list op) (w : world) (r : outcome unit * world) (t : list event) : Prop :=
  match run_ops ops (fs w) with
  | inr d => r.1 = Ret tt ∧ fs r.2 = d ∧ fs_events t = ops ≫= op_events
  | inl e => r.1 = Raise e ∧ fs_events t `prefix_of` (ops ≫= op_events)
  end.

(** The run ended with [o] before any file-system call. *)
Definition stopped (o : outcome unit) (w : world) (r : outcome unit * world) (t : list event) : Prop :=
  r.1 = o ∧ fs r.2 = fs w ∧ fs_events t = [].

(** What a run of the gate followed by [ops] from [w] comes to. *)
Definition behaves (ops : list op) (w : world) (r : outcome unit * world) : Prop :=
  ∃ t, trace r.2 = trace w ++ t ∧
    if has_git w then
      inputs t = [] ∧ stdin r.2 = stdin w ∧ ran ops w r t
    else
      inputs t = [EvInput prompt] ∧ stdin r.2 = tail (stdin w) ∧
      match stdin w with
      | [] => stopped (Raise EOFError) w r t
      | response :: _ =>
          if String.eqb (PyStr.lower response) "y" then ran ops w r t
          else stopped (Exit 0) w r t
      end.

(** The file-system calls of a complete run, in order. *)
Definition plan_events : list event :=
  (EvMkdir ∘ Path <$> directories) ++
  (FILES ≫= λ item, create_events item.1 item.2) ++
  (placeholders ≫= λ item, create_events item.1 (format placeholder_template item.2)) ++
  create_events "docs/SETUP_INSTRUCTIONS.md" setup_instructions ++
  create_events "docs/QUICK_REFERENCE.md" quick_ref.

(** A status other than zero reports abnormal termination. *)
Definition abnormal {A} (o : outcome A) : Prop := exit_status o ≠ 0%Z.

(** ** Worlds to run the script in *)

(** An empty working directory, with the given lines on standard input. *)
Definition fresh_dir (answers : list string) : world :=
  {| fs := ∅; stdin := answers; trace := [] |}.

(** A working directory that already holds a [README.md] of its own. *)
Definition stale_readme : world :=
  {| fs := {["README.md" := File "# old notes"]}; stdin := ["y"]; trace := [] |}.

(** A working directory inside a repository: [.git] is a directory. *)
Definition git_repository : world :=
  {| fs := {[".git" := Dir ∅]}; stdin := []; trace := [] |}.

(** A linked worktree: [.git] is a regular file. *)
Definition git_worktree : world :=
  {| fs := {[".git" := File "gitdir: ../.git/worktrees/scratch"]}; stdin := []; trace := [] |}.

(** A working directory in which [docs] is a regular file. *)
Definition docs_is_a_file : world :=
  {| fs := {["docs" := File "notes"]}; stdin := ["y"]; trace := [] |}.

(** Membership in a list that is written out. *)
Ltac in_list :=
  repeat first [apply list_elem_of_here | apply list_elem_of_further].

(** ** Runs that end early *)

(** The line [create_file] prints once it has written [filepath]. *)
Definition success_line (filepath : string) : string :=
  Colors.OKGREEN +:+ "âœ“ " +:+ ("Created " +:+ filepath) +:+ Colors.ENDC.

(** A line in the colour of [print_error]. *)
Definition is_error_line (e : event) : bool :=
  match e with
  | EvPrint line => PyStr.startswith Colors.FAIL line
  | _ => false
  end.

(** [reaches m ops]: whatever the world and however [m] ends, the tree it
    leaves is what a prefix of [ops] makes of the tree it started on, all
    of [ops] when [m] returns, and it prints no line in the colour of
    [print_error]. *)
Definition reaches {A} (m : M A) (ops : list op) : Prop :=
  ∀ w, ∃ t made,
    trace (m w).2 = trace w ++ t ∧
    Forall (λ e, is_error_line e = false) t ∧
    made `prefix_of` ops ∧
    run_ops made (fs w) = inr (fs (m w).2) ∧
    (∀ a, (m w).1 = Ret a → made = ops).

(** The directory [o] needs is one of the list of
    [create_directory_structure] or an ancestor of one. *)
Definition covered (o : op) : bool :=
  existsb (λ directory, bool_decide (dir_target o `prefix_of` Path directory)) directories.

(** A working directory whose layout the user has started to fill in. *)
Definition filled_in : world :=
  {| fs := {["training" := Dir {["src" := Dir {["train_distributed.py" := File "import torch"]}]};
             "notes.txt" := File "keep me"]};
     stdin := ["y"]; trace := [] |}.



(** ** The file-system operations, seen through [stat] *)

Section tree.
Implicit Types (d ch : gmap string node) (p q : path) (c : string).

Lemma stat_empty p : p ≠ [] → stat ∅ p = None.
Proof. destruct p; [done|]. intros _. simpl. by rewrite lookup_empty. Qed.

Lemma stat_cons d c q :
  stat d (c :: q) =
  match d !! c with
  | None => None
  | Some (File s) => match q with [] => Some (EFile s) | _ :: _ => None end
  | Some (Dir ch) => stat ch q
  end.
Proof. done. Qed.

Lemma stat_insert_ne d c c' n q :
  c ≠ c' → stat (<[c := n]> d) (c' :: q) = stat d (c' :: q).
Proof. intros Hne. simpl. by rewrite lookup_insert_ne. Qed.

Lemma stat_insert_dir d c ch q :
  stat (<[c := Dir ch]> d) (c :: q) = stat ch q.
Proof. simpl. by rewrite lookup_insert_eq. Qed.

Lemma stat_insert_file d c s q :
  stat (<[c := File s]> d) (c :: q) = match q with [] => Some (EFile s) | _ :: _ => None end.
Proof. simpl. by rewrite lookup_insert_eq. Qed.

(** An entry that exists sits in a directory. *)
Lemma stat_parent d p e : stat d p = Some e → stat d (parent p) = Some EDir.
Proof.
  revert d. induction p as [|c p IH]; intros d H; [done|].
  destruct p as [|c' p']; [done|].
  change (parent (c :: c' :: p')) with (c :: parent (c' :: p')).
  simpl in H. simpl stat.
  destruct (d !! c) as [[s|ch]|]; [done| |done].
  by apply IH.
Qed.

(** After [makedirs d p], every prefix of [p] is a directory and every
    other path is as it was. *)
Lemma stat_makedirs d p d' q :
  makedirs d p = inr d' →
  stat d' q = if decide (q `prefix_of` p) then Some EDir else stat d q.
Proof.
  revert d d' q. induction p as [|c p IH]; intros d d' q H; simpl in H.
  - injection H as <-. destruct q as [|c' q'].
    + by rewrite decide_True by apply prefix_nil.
    + by rewrite decide_False by apply prefix_nil_not.
  - destruct q as [|c' q'].
    { by rewrite decide_True by apply prefix_nil. }
    assert (∀ ch0 ch', makedirs ch0 p = inr ch' →
              (∀ q', ¬ q' `prefix_of` p → stat ch0 q' = stat d (c :: q')) →
              stat (<[c := Dir ch']> d) (c' :: q')
              = if decide (c' :: q' `prefix_of` c :: p) then Some EDir else stat d (c' :: q'))
      as Hstep.
    { intros ch0 ch' Hm Hold. destruct (decide (c = c')) as [<-|Hne].
      - rewrite stat_insert_dir, (IH _ _ _ Hm).
        destruct (decide (q' `prefix_of` p)) as [Hp|Hp].
        + by rewrite decide_True by by apply prefix_cons.
        + rewrite decide_False; [by apply Hold|].
          intros Hp'. by apply prefix_cons_inv_2 in Hp'.
      - rewrite stat_insert_ne by done.
        rewrite decide_False; [done|].
        intros Hp'. by apply prefix_cons_inv_1 in Hp'. }
    destruct (d !! c) as [[s|ch]|] eqn:E; [done| |].
    + destruct (makedirs ch p) as [e|ch'] eqn:Hm; [done|]. injection H as <-.
      apply (Hstep ch ch' Hm). intros q'' _. simpl. by rewrite E.
    + destruct (makedirs ∅ p) as [e|ch'] eqn:Hm; [done|]. injection H as <-.
      apply (Hstep ∅ ch' Hm). intros q'' Hq. simpl. rewrite E.
      apply stat_empty. intros ->. apply Hq, prefix_nil.
Qed.

(** [free_for_dir] is the condition under which [makedirs] succeeds. *)
Lemma makedirs_ok d p : free_for_dir d p = true → ∃ d', makedirs d p = inr d'.
Proof.
  revert d. induction p as [|c p IH]; intros d H; simpl in *; [by eexists|].
  destruct (d !! c) as [[s|ch]|]; [done| |].
  - destruct (IH ch H) as [ch' ->]. by eexists.
  - destruct (IH ∅) as [ch' ->]; [|by eexists].
    destruct p; simpl; [done|]. by rewrite lookup_empty.
Qed.

Lemma makedirs_free d p d' : makedirs d p = inr d' → free_for_dir d p = true.
Proof.
  revert d d'. induction p as [|c p IH]; intros d d' H; simpl in *; [done|].
  destruct (d !! c) as [[s|ch]|]; [done| |done].
  destruct (makedirs ch p) eqn:Hm; [done|]. by eapply IH.
Qed.

(** A regular file in the way of [p] makes [free_for_dir] fail. *)
Lemma free_for_dir_no_file d p q s :
  free_for_dir d p = true → q `prefix_of` p → stat d q ≠ Some (EFile s).
Proof.
  revert d q. induction p as [|c p IH]; intros d q H Hq.
  - apply prefix_nil_inv in Hq as ->. done.
  - destruct q as [|c' q']; [done|].
    pose proof (prefix_cons_inv_1 _ _ _ _ Hq) as ->.
    apply prefix_cons_inv_2 in Hq. simpl in *.
    destruct (d !! c) as [[s'|ch]|]; [done| |done].
    by apply IH.
Qed.

Lemma free_for_dir_stat d p :
  (∀ q s, q `prefix_of` p → stat d q ≠ Some (EFile s)) → free_for_dir d p = true.
Proof.
  revert d. induction p as [|c p IH]; intros d H; simpl; [done|].
  destruct (d !! c) as [[s|ch]|] eqn:E; [|apply IH|done].
  - exfalso. apply (H [c] s); [by apply prefix_cons, prefix_nil|]. simpl. by rewrite E.
  - intros q s Hq Hs. apply (H (c :: q) s); [by apply prefix_cons|]. simpl. by rewrite E.
Qed.

(** A directory that is already there is left alone, and so is all the
    rest. *)
Lemma makedirs_id d p : stat d p = Some EDir → makedirs d p = inr d.
Proof.
  revert d. induction p as [|c p IH]; intros d H; simpl in *; [done|].
  destruct (d !! c) as [[s|ch]|] eqn:E.
  - by destruct p.
  - rewrite (IH ch H). by rewrite insert_id.
  - done.
Qed.

Lemma write_at_deep d c c2 p2 content :
  write_at d (c :: c2 :: p2) content =
  match d !! c with
  | Some (Dir ch) =>
      match write_at ch (c2 :: p2) content with
      | inl e => inl e
      | inr ch' => inr (<[c := Dir ch']> d)
      end
  | Some (File _) => inl NotADirectoryError
  | None => inl FileNotFoundError
  end.
Proof. done. Qed.

(** After [write_at d p content], [p] is a regular file holding [content]
    and every other path is as it was. *)
Lemma stat_write_at d p content d' q :
  write_at d p content = inr d' →
  stat d' q = if decide (q = p) then Some (EFile content) else stat d q.
Proof.
  revert d d' q. induction p as [|c p IH]; intros d d' q H; [done|].
  destruct p as [|c2 p2].
  - simpl in H.
    assert (d' = <[c := File content]> d ∧ ∀ ch, d !! c ≠ Some (Dir ch)) as [-> Hnd].
    { destruct (d !! c) as [[s|ch]|]; naive_solver. }
    destruct q as [|c' q']; [by rewrite decide_False by done|].
    destruct (decide (c = c')) as [<-|Hne].
    + rewrite stat_insert_file. destruct q' as [|c3 q3].
      * by rewrite decide_True by done.
      * rewrite decide_False by done. simpl.
        destruct (d !! c) as [[s|ch]|] eqn:E; [done| |done]. by destruct (Hnd ch).
    + rewrite stat_insert_ne by done. rewrite decide_False; [done|congruence].
  - rewrite write_at_deep in H.
    destruct (d !! c) as [[s|ch]|] eqn:E; [done| |done].
    destruct (write_at ch (c2 :: p2) content) as [e|ch'] eqn:Hw; [done|].
    injection H as <-.
    destruct q as [|c' q']; [by rewrite decide_False by done|].
    destruct (decide (c = c')) as [<-|Hne].
    + rewrite stat_insert_dir, (IH _ _ _ Hw).
      repeat case_decide; simplify_eq; [done|]. simpl. by rewrite E.
    + rewrite stat_insert_ne by done. rewrite decide_False; [done|congruence].
Qed.

(** [write_at] raises on a directory. *)
Lemma write_at_not_dir d p content d' :
  write_at d p content = inr d' → stat d p ≠ Some EDir.
Proof.
  revert d d'. induction p as [|c p IH]; intros d d' H; [done|].
  destruct p as [|c2 p2].
  - simpl in *. destruct (d !! c) as [[s|ch]|]; done.
  - rewrite write_at_deep in H. simpl.
    destruct (d !! c) as [[s|ch]|]; [done| |done].
    destruct (write_at ch (c2 :: p2) content) eqn:Hw; [done|]. by eapply IH.
Qed.

(** [write_at] succeeds below a directory, on anything but a
    directory. *)
Lemma write_at_ok d p content :
  stat d (parent p) = Some EDir → is_dir d p = false →
  ∃ d', write_at d p content = inr d'.
Proof.
  unfold is_dir. rewrite bool_decide_eq_false.
  revert d. induction p as [|c p IH]; intros d Hpar Hnd; [done|].
  destruct p as [|c2 p2].
  - simpl in *. destruct (d !! c) as [[s|ch]|]; [by eexists| |by eexists].
    by destruct Hnd.
  - change (parent (c :: c2 :: p2)) with (c :: parent (c2 :: p2)) in Hpar.
    rewrite stat_cons in Hpar, Hnd. rewrite write_at_deep.
    destruct (d !! c) as [[s|ch]|]; [by destruct (parent _)| |done].
    destruct (IH ch Hpar Hnd) as [ch' ->]. by eexists.
Qed.

(** Writing a file what it already holds changes nothing. *)
Lemma write_at_id d p content :
  stat d p = Some (EFile content) → write_at d p content = inr d.
Proof.
  revert d. induction p as [|c p IH]; intros d H; [done|].
  destruct p as [|c2 p2].
  - simpl in *. destruct (d !! c) as [[s|ch]|] eqn:E; [|done|done].
    injection H as ->. by rewrite insert_id.
  - rewrite write_at_deep. simpl in H.
    destruct (d !! c) as [[s|ch]|] eqn:E; [done| |done].
    rewrite (IH ch H). by rewrite insert_id.
Qed.

End tree.

(** ** Sequences of operations *)

Section operations.
Implicit Types (d : gmap string node) (p q : path) (o : op) (ops : list op).

Lemma run_ops_app ops1 ops2 d :
  run_ops (ops1 ++ ops2) d =
  match run_ops ops1 d with
  | inl e => inl e
  | inr d' => run_ops ops2 d'
  end.
Proof.
  revert d. induction ops1 as [|o ops1 IH]; intros d; simpl; [done|].
  destruct (run_op o d); [done|apply IH].
Qed.

Lemma parent_not_prefix p : p ≠ [] → ¬ p `prefix_of` parent p.
Proof.
  intros Hp Hpre. apply prefix_length in Hpre.
  destruct (exists_last Hp) as (l & x & ->).
  unfold parent in Hpre. rewrite removelast_last, length_app in Hpre. simpl in Hpre. lia.
Qed.

Lemma run_mkdir_stat directory d d' q :
  run_op (OpMkdir directory) d = inr d' →
  stat d' q = if decide (q `prefix_of` Path directory) then Some EDir else stat d q.
Proof. apply stat_makedirs. Qed.

Lemma run_create_stat filepath content d d' q :
  run_op (OpCreate filepath content) d = inr d' →
  stat d' q =
    if decide (q = Path filepath) then Some (EFile content)
    else if decide (q `prefix_of` parent (Path filepath)) then Some EDir
    else stat d q.
Proof.
  simpl. destruct (makedirs d (parent (Path filepath))) as [e|d1] eqn:Hm; [done|].
  intros Hw. rewrite (stat_write_at _ _ _ _ _ Hw).
  case_decide; [done|]. apply (stat_makedirs _ _ _ _ Hm).
Qed.

(** What [run_op] succeeded on cannot have been in the way. *)
Lemma run_op_dir_free o d d' : run_op o d = inr d' → free_for_dir d (dir_target o) = true.
Proof.
  destruct o as [directory|filepath content]; simpl.
  - apply makedirs_free.
  - destruct (makedirs d (parent (Path filepath))) eqn:Hm; [done|].
    intros _. by eapply makedirs_free.
Qed.

Lemma run_create_not_dir filepath content d d' :
  run_op (OpCreate filepath content) d = inr d' →
  Path filepath ≠ [] ∧ stat d (Path filepath) ≠ Some EDir.
Proof.
  simpl. destruct (makedirs d (parent (Path filepath))) as [e|d1] eqn:Hm; [done|].
  intros Hw. pose proof (write_at_not_dir _ _ _ _ Hw) as Hnd.
  assert (Path filepath ≠ []) as Hne by (by intros E; rewrite E in Hw).
  split; [done|]. intros Hd. apply Hnd.
  rewrite (stat_makedirs _ _ _ _ Hm). by case_decide.
Qed.

(** A directory stays a directory. *)
Lemma run_op_dir_stable o d d' q :
  run_op o d = inr d' → stat d q = Some EDir → stat d' q = Some EDir.
Proof.
  intros Hrun Hq. destruct o as [directory|filepath content].
  - rewrite (run_mkdir_stat _ _ _ _ Hrun). by case_decide.
  - rewrite (run_create_stat _ _ _ _ _ Hrun).
    destruct (run_create_not_dir _ _ _ _ Hrun) as [_ Hnd].
    repeat case_decide; congruence.
Qed.

(** A regular file keeps its contents until it is written again. *)
Lemma run_op_file_stable o d d' q s :
  run_op o d = inr d' → file_target o ≠ Some q →
  stat d q = Some (EFile s) → stat d' q = Some (EFile s).
Proof.
  intros Hrun Hne Hq.
  pose proof (run_op_dir_free _ _ _ Hrun) as Hfree.
  assert (¬ q `prefix_of` dir_target o) as Hnp.
  { intros Hp. by eapply free_for_dir_no_file. }
  destruct o as [directory|filepath content]; simpl in *.
  - rewrite (run_mkdir_stat _ _ _ _ Hrun). by rewrite decide_False.
  - rewrite (run_create_stat _ _ _ _ _ Hrun).
    rewrite decide_False by congruence. by rewrite decide_False.
Qed.

Lemma run_ops_dir_stable ops d d' q :
  run_ops ops d = inr d' → stat d q = Some EDir → stat d' q = Some EDir.
Proof.
  revert d. induction ops as [|o ops IH]; intros d Hrun Hq; simpl in Hrun.
  - by injection Hrun as <-.
  - destruct (run_op o d) as [e|d1] eqn:Ho; [done|].
    eapply IH; [done|]. by eapply run_op_dir_stable.
Qed.

(** Every directory the sequence asks for is there at the end, with all
    its ancestors. *)
Lemma run_ops_dir ops d d' o q :
  run_ops ops d = inr d' → o ∈ ops → q `prefix_of` dir_target o →
  stat d' q = Some EDir.
Proof.
  revert d. induction ops as [|o' ops IH]; intros d Hrun Hin Hq.
  - by apply elem_of_nil in Hin.
  - simpl in Hrun. destruct (run_op o' d) as [e|d1] eqn:Ho; [done|].
    apply elem_of_cons in Hin as [->|Hin]; [|by eapply IH].
    eapply run_ops_dir_stable; [done|].
    destruct o' as [directory|filepath content]; simpl in Hq.
    + rewrite (run_mkdir_stat _ _ _ _ Ho). by rewrite decide_True.
    + rewrite (run_create_stat _ _ _ _ _ Ho).
      destruct (run_create_not_dir _ _ _ _ Ho) as [Hne _].
      rewrite decide_False, decide_True; [done..|].
      intros ->. by apply (parent_not_prefix (Path filepath)).
Qed.

Lemma final_content_None_cons o ops p :
  final_content (o :: ops) p = None →
  file_target o ≠ Some p ∧ final_content ops p = None.
Proof.
  simpl. destruct (final_content ops p); [done|].
  destruct o as [directory|filepath content]; simpl; [done|].
  case_decide; [done|]. intros _. split; congruence.
Qed.

Lemma run_ops_file_stable ops d d' q s :
  run_ops ops d = inr d' → final_content ops q = None →
  stat d q = Some (EFile s) → stat d' q = Some (EFile s).
Proof.
  revert d. induction ops as [|o ops IH]; intros d Hrun Hfc Hq; simpl in Hrun.
  - by injection Hrun as <-.
  - destruct (run_op o d) as [e|d1] eqn:Ho; [done|].
    apply final_content_None_cons in Hfc as [Hne Hfc].
    eapply IH; [done..|]. by eapply run_op_file_stable.
Qed.

(** At the end of a sequence that succeeded, a path holds what the last
    operation on it wrote. *)
Lemma run_ops_final ops d d' p content :
  run_ops ops d = inr d' → final_content ops p = Some content →
  stat d' p = Some (EFile content).
Proof.
  revert d. induction ops as [|o ops IH]; intros d Hrun Hfc; [done|].
  simpl in Hrun, Hfc. destruct (run_op o d) as [e|d1] eqn:Ho; [done|].
  destruct (final_content ops p) as [c|] eqn:Hlater.
  - injection Hfc as ->. by eapply IH.
  - destruct o as [directory|filepath c]; [done|].
    case_decide as Hp; [|done]. injection Hfc as ->. subst p.
    eapply run_ops_file_stable; [done..|].
    rewrite (run_create_stat _ _ _ _ _ Ho). by rewrite decide_True.
Qed.

(** Operations that are settled change nothing. *)
Lemma run_op_settled o d : settled d o → run_op o d = inr d.
Proof.
  destruct o as [directory|filepath content]; simpl; intros H.
  - by apply makedirs_id.
  - rewrite (makedirs_id _ _ (stat_parent _ _ _ H)). by apply write_at_id.
Qed.

Lemma run_ops_settled ops d : Forall (settled d) ops → run_ops ops d = inr d.
Proof.
  induction 1 as [|o ops Ho _ IH]; simpl; [done|]. by rewrite (run_op_settled _ _ Ho).
Qed.

Lemma written_once_spec ops filepath content :
  written_once ops = true → OpCreate filepath content ∈ ops →
  final_content ops (Path filepath) = Some content.
Proof.
  unfold written_once. rewrite forallb_forall. intros H Hin.
  apply list_elem_of_In, H in Hin. by apply bool_decide_eq_true in Hin.
Qed.

(** Running a sequence again on the tree it produced changes nothing. *)
Lemma run_ops_idempotent ops d d' :
  written_once ops = true → run_ops ops d = inr d' → run_ops ops d' = inr d'.
Proof.
  intros Honce Hrun. apply run_ops_settled, Forall_forall. intros o Hin.
  destruct o as [directory|filepath content]; simpl.
  - by eapply (run_ops_dir _ _ _ (OpMkdir directory)).
  - eapply run_ops_final; [done|]. by apply written_once_spec.
Qed.

Lemma consistent_spec ops o1 o2 f :
  consistent ops = true → o1 ∈ ops → o2 ∈ ops → file_target o1 = Some f →
  ¬ f `prefix_of` dir_target o2.
Proof.
  unfold consistent. rewrite forallb_forall. intros H H1 H2 Hf.
  assert (In f (omap file_target ops)) as Hin.
  { apply list_elem_of_In, list_elem_of_omap. eauto. }
  specialize (H _ Hin). rewrite forallb_forall in H.
  assert (In (dir_target o2) (dir_target <$> ops)) as Hin2.
  { apply list_elem_of_In, list_elem_of_fmap. eauto. }
  specialize (H _ Hin2). apply negb_true_iff, bool_decide_eq_false in H. done.
Qed.

(** [op_free] is what [run_op] needs. *)
Lemma run_op_ok o d : op_free d o = true → ∃ d', run_op o d = inr d'.
Proof.
  destruct o as [directory|filepath content]; simpl; [apply makedirs_ok|].
  intros [Hfree Hnd]%andb_true_iff. apply negb_true_iff in Hnd.
  destruct (makedirs_ok _ _ Hfree) as [d1 Hm]. rewrite Hm.
  apply write_at_ok.
  - rewrite (stat_makedirs _ _ _ _ Hm). by rewrite decide_True.
  - unfold is_dir in *. rewrite bool_decide_eq_false in Hnd |- *.
    rewrite (stat_makedirs _ _ _ _ Hm). case_decide as Hp; [|done].
    intros _. destruct (decide (Path filepath = [])) as [E|Hne].
    + apply Hnd. by rewrite E.
    + by apply parent_not_prefix in Hp.
Qed.

(** An operation leaves the tree free for any other it is consistent
    with. *)
Lemma run_op_keeps_free o o' d d' :
  run_op o d = inr d' →
  (∀ f, file_target o = Some f → ¬ f `prefix_of` dir_target o') →
  (∀ f, file_target o' = Some f → ¬ f `prefix_of` dir_target o) →
  op_free d o' = true → op_free d' o' = true.
Proof.
  intros Hrun Hfd Hdf Hfree.
  assert (∀ q, stat d' q = Some EDir → q `prefix_of` dir_target o ∨ stat d q = Some EDir)
    as Hdirs.
  { intros q. destruct o as [directory|filepath content]; simpl.
    - rewrite (run_mkdir_stat _ _ _ _ Hrun). case_decide; auto.
    - rewrite (run_create_stat _ _ _ _ _ Hrun). repeat case_decide; auto. done. }
  assert (∀ q s, stat d' q = Some (EFile s) → file_target o = Some q ∨ stat d q = Some (EFile s))
    as Hfiles.
  { intros q s. destruct o as [directory|filepath content]; simpl.
    - rewrite (run_mkdir_stat _ _ _ _ Hrun). case_decide; auto. done.
    - rewrite (run_create_stat _ _ _ _ _ Hrun). repeat case_decide; subst; auto. done. }
  assert (free_for_dir d (dir_target o') = true → free_for_dir d' (dir_target o') = true)
    as Hkeep.
  { intros Hf. apply free_for_dir_stat. intros q s Hq Hs.
    destruct (Hfiles _ _ Hs) as [Hq'|Hq'].
    - by apply (Hfd q).
    - by eapply free_for_dir_no_file. }
  destruct o' as [directory|filepath content]; simpl in *; [by apply Hkeep|].
  apply andb_true_iff in Hfree as [Hfree Hnd]. apply andb_true_iff. split; [by apply Hkeep|].
  apply negb_true_iff in Hnd. apply negb_true_iff.
  unfold is_dir in *. rewrite bool_decide_eq_false in Hnd |- *.
  intros Hd. destruct (Hdirs _ Hd) as [Hp|Hp]; [|done]. by apply (Hdf (Path filepath)).
Qed.

(** A consistent sequence succeeds on every tree that is free for each
    of its operations. *)
Lemma run_ops_ok_sub all ops d :
  consistent all = true → ops ⊆ all →
  forallb (op_free d) ops = true → ∃ d', run_ops ops d = inr d'.
Proof.
  intros Hcons. revert d. induction ops as [|o ops IH]; intros d Hsub Hfree; simpl.
  { by eexists. }
  simpl in Hfree. apply andb_true_iff in Hfree as [Ho Hfree].
  destruct (run_op_ok _ _ Ho) as [d1 Hrun]. rewrite Hrun.
  assert (o ∈ all) as Hin by set_solver.
  apply IH; [set_solver|].
  rewrite forallb_forall in Hfree |- *. intros o' Hin'.
  apply list_elem_of_In in Hin'.
  assert (o' ∈ all) as Hin'' by set_solver.
  apply list_elem_of_In in Hin'.
  eapply run_op_keeps_free; [done| | |by apply Hfree].
  - intros f Hf. by apply (consistent_spec all o o' f).
  - intros f Hf. by apply (consistent_spec all o' o f).
Qed.

Lemma run_ops_ok ops d :
  consistent ops = true → forallb (op_free d) ops = true →
  ∃ d', run_ops ops d = inr d'.
Proof. intros. by eapply run_ops_ok_sub. Qed.

(** Conversely, a sequence that succeeded started on a tree that was free
    for its first operation. *)
Lemma run_op_free o d d' : run_op o d = inr d' → op_free d o = true.
Proof.
  intros Hrun. pose proof (run_op_dir_free _ _ _ Hrun) as Hfree.
  destruct o as [directory|filepath content]; simpl in *; [done|].
  rewrite Hfree. simpl. apply negb_true_iff, bool_decide_eq_false.
  by destruct (run_create_not_dir _ _ _ _ Hrun).
Qed.

End operations.

(** ** The script performs its plan *)

Section performs.

Lemma bind_run {A B} (m : M A) (k : A → M B) w :
  (m ≫= k) w =
  match m w with
  | (Ret a, w') => k a w'
  | (Raise e, w') => (Raise e, w')
  | (Exit n, w') => (Exit n, w')
  end.
Proof. done. Qed.

Lemma fs_events_app t1 t2 : fs_events (t1 ++ t2) = fs_events t1 ++ fs_events t2.
Proof. apply filter_app. Qed.

Lemma inputs_app t1 t2 : inputs (t1 ++ t2) = inputs t1 ++ inputs t2.
Proof. apply filter_app. Qed.

Lemma performs_eq {A} (m : M A) ops ops' : ops = ops' → performs m ops → performs m ops'.
Proof. by intros ->. Qed.

Lemma performs_ret {A} (a : A) : performs (mret a) [].
Proof. intros w. exists []. simpl. rewrite app_nil_r. eauto 10. Qed.

Lemma performs_print line : performs (print line) [].
Proof. intros w. exists [EvPrint line]. simpl. eauto 10. Qed.

Lemma performs_bind {A B} (m : M A) (k : A → M B) ops1 ops2 :
  performs m ops1 → (∀ a, performs (k a) ops2) → performs (m ≫= k) (ops1 ++ ops2).
Proof.
  intros Hm Hk w. destruct (Hm w) as (t1 & Htr1 & Hin1 & Hi1 & Hrun1).
  rewrite bind_run, run_ops_app, bind_app.
  destruct (m w) as [o1 w1]. simpl in *.
  destruct (run_ops ops1 (fs w)) as [e|d1].
  - destruct Hrun1 as [-> Hpre]. exists t1. split_and!; [done..|].
    by apply prefix_app_r.
  - destruct Hrun1 as ([a ->] & <- & Hev1).
    destruct (Hk a w1) as (t2 & Htr2 & Hin2 & Hi2 & Hrun2).
    exists (t1 ++ t2). rewrite Htr2, Htr1, Hin2, Hin1, inputs_app, Hi1, Hi2, fs_events_app, Hev1.
    split_and!; [by rewrite app_assoc|done..|].
    destruct (run_ops ops2 (fs w1)) as [e|d2].
    + destruct Hrun2 as [-> Hpre]. split; [done|]. by apply prefix_app.
    + destruct Hrun2 as (Hret & <- & ->). done.
Qed.

Lemma performs_for_each {A} (xs : list A) (body : A → M unit) (f : A → op) :
  (∀ x, performs (body x) [f x]) → performs (for_ xs body) (f <$> xs).
Proof.
  intros Hbody. induction xs as [|x xs IH]; simpl.
  - apply performs_ret.
  - apply (performs_bind _ _ [f x]); [apply Hbody|by intros _].
Qed.

Lemma performs_then_silent {A B} (m : M A) (k : A → M B) ops :
  performs m ops → (∀ a, performs (k a) []) → performs (m ≫= k) ops.
Proof.
  intros Hm Hk. eapply performs_eq; [apply app_nil_r|]. by apply performs_bind.
Qed.

Lemma performs_silent_bind {A B} (m : M A) (k : A → M B) ops :
  performs m [] → (∀ a, performs (k a) ops) → performs (m ≫= k) ops.
Proof. apply (performs_bind m k []). Qed.

Lemma performs_print_header text : performs (print_header text) [].
Proof.
  unfold print_header.
  repeat (apply performs_silent_bind; [apply performs_print|intros _]).
  apply performs_print.
Qed.

Lemma performs_print_success text : performs (print_success text) [].
Proof. apply performs_print. Qed.

Lemma performs_print_info text : performs (print_info text) [].
Proof. apply performs_print. Qed.

Lemma performs_print_warning text : performs (print_warning text) [].
Proof. apply performs_print. Qed.

Lemma performs_mkdir directory :
  performs (Path_mkdir (Path directory)) [OpMkdir directory].
Proof.
  intros w. exists [EvMkdir (Path directory)]. unfold Path_mkdir. simpl.
  destruct (makedirs (fs w) (Path directory)) as [e|d]; simpl; eauto 10.
Qed.

Lemma performs_create_file filepath content :
  performs (create_file filepath content) [OpCreate filepath content].
Proof.
  intros w.
  cbv [create_file mbind M_bind Path_mkdir Path_write_text print_success print log].
  cbn [fs stdin trace run_ops run_op].
  destruct (makedirs (fs w) (parent (Path filepath))) as [e|d1].
  { exists [EvMkdir (parent (Path filepath))]. cbn [fst snd fs stdin trace].
    split_and!; [done..|]. by exists [EvWriteText (Path filepath) content]. }
  cbn [fs stdin trace].
  destruct (write_at d1 (Path filepath) content) as [e|d2].
  { exists (create_events filepath content). cbn [fst snd fs stdin trace].
    rewrite <- app_assoc. split_and!; done. }
  exists (create_events filepath content ++
          [EvPrint (Colors.OKGREEN +:+ "âœ“ " +:+ ("Created " +:+ filepath) +:+ Colors.ENDC)]).
  cbn [fst snd fs stdin trace].
  rewrite <- !app_assoc. split_and!; [done..|eauto|done|done].
Qed.

Lemma performs_create_directory_structure :
  performs create_directory_structure (OpMkdir <$> directories).
Proof.
  apply performs_then_silent; [|intros _; apply performs_print_success].
  apply performs_for_each. intros directory. apply performs_mkdir.
Qed.

Lemma performs_create_placeholder_note filename description :
  performs (create_placeholder_note filename description)
           [placeholder_op (filename, description)].
Proof. apply performs_create_file. Qed.

(** A computation that performs nothing only adds prints to the
    trace. *)
Lemma bind_silent {A B} (m : M A) (k : A → M B) w :
  performs m [] →
  ∃ a t, (m ≫= k) w = k a {| fs := fs w; stdin := stdin w; trace := trace w ++ t |}
         ∧ fs_events t = [] ∧ inputs t = [].
Proof.
  intros Hm. destruct (Hm w) as (t & Htr & Hin & Hi & [a Hret] & Hfs & Hev).
  exists a, t. rewrite bind_run. destruct (m w) as [o [d i tr]]. simpl in *.
  by subst.
Qed.

End performs.

(** ** The whole of [main] *)

Section main_run.

Lemma performs_files :
  performs (for_ FILES (λ '(filepath, content), create_file filepath content))
           ((λ item, OpCreate item.1 item.2) <$> FILES).
Proof. apply performs_for_each. intros [filepath content]. apply performs_create_file. Qed.

Lemma performs_placeholders :
  performs (for_ placeholders
                 (λ '(filepath, description), create_placeholder_note filepath description))
           (placeholder_op <$> placeholders).
Proof.
  apply performs_for_each. intros [filepath description].
  apply performs_create_placeholder_note.
Qed.

(** [main] is its gate followed by a computation that performs
    [plan]. *)
Lemma main_gated : ∃ rest, main = gated rest ∧ performs rest plan.
Proof.
  eexists. split; [reflexivity|].
  eapply performs_eq; [|
    apply performs_silent_bind; [apply performs_print_info|intros _];
    eapply performs_bind; [apply performs_create_directory_structure|intros _];
    apply performs_silent_bind; [apply performs_print|intros _];
    apply performs_silent_bind; [apply performs_print_info|intros _];
    eapply performs_bind; [apply performs_files|intros _];
    apply performs_silent_bind; [apply performs_print|intros _];
    apply performs_silent_bind; [apply performs_print_info|intros _];
    eapply performs_bind; [apply performs_placeholders|intros _];
    apply performs_silent_bind; [apply performs_print|intros _];
    eapply performs_bind; [apply performs_create_file|intros _];
    eapply performs_bind; [apply performs_create_file|intros _];
    apply performs_silent_bind; [apply performs_print|intros _];
    apply performs_silent_bind; [apply performs_print_header|intros _];
    repeat (apply performs_silent_bind; [apply performs_print|intros _]);
    apply performs_print ].
  reflexivity.
Qed.

Lemma plan_events_eq : plan ≫= op_events = plan_events.
Proof. reflexivity. Qed.

Lemma ran_silent_prefix ops w w0 t0 r t :
  fs w0 = fs w → fs_events t0 = [] → ran ops w0 r t → ran ops w r (t0 ++ t).
Proof. unfold ran. intros -> H0. by rewrite fs_events_app, H0. Qed.

Lemma gated_behaves rest ops w :
  performs rest ops → behaves ops w (gated rest w).
Proof.
  intros Hrest. unfold gated, behaves.
  destruct (bind_silent (print_header "AI Infrastructure Projects Installer")
              (λ _, git ← Path_exists (Path ".git");
                    (if negb git then
                       print_warning "Not in a git repository. Initialize one first:" ;;
                       print_info "  git init" ;;
                       print_info "  git remote add origin https://github.com/YOUR_USERNAME/ai-infrastructure-projects" ;;
                       print "" ;;
                       response ← input prompt;
                       if negb (String.eqb (PyStr.lower response) "y")
                       then sys_exit 0 else mret tt
                     else mret tt) ;; rest) w (performs_print_header _))
    as ([] & t0 & -> & Hf0 & Hi0).
  rewrite bind_run. cbn [Path_exists fs]. fold (has_git w).
  destruct (has_git w).
  - cbn [negb]. rewrite bind_run. cbn [mret M_ret].
    destruct (Hrest {| fs := fs w; stdin := stdin w; trace := trace w ++ t0 |})
      as (t & Htr & Hin & Hi & Hrun). cbn [fs stdin trace] in *.
    exists (t0 ++ t). rewrite Htr, Hin, inputs_app, Hi0, Hi, app_assoc.
    split_and!; [done..|]. apply (ran_silent_prefix _ _ _ _ _ _ eq_refl Hf0).
    unfold ran. cbn [fs]. destruct (run_ops ops (fs w)); [done|].
    destruct Hrun as ([[] ?] & ? & ?). done.
  - cbn [negb]. rewrite bind_run.
    destruct (bind_silent (print_warning "Not in a git repository. Initialize one first:")
      (λ _, print_info "  git init" ;;
            print_info "  git remote add origin https://github.com/YOUR_USERNAME/ai-infrastructure-projects" ;;
            print "" ;;
            response ← input prompt;
            if negb (String.eqb (PyStr.lower response) "y") then sys_exit 0 else mret tt)
      {| fs := fs w; stdin := stdin w; trace := trace w ++ t0 |}
      (performs_print_warning _)) as ([] & t1 & -> & Hf1 & Hi1).
    cbn [fs stdin trace].
    destruct (bind_silent (print_info "  git init")
      (λ _, print_info "  git remote add origin https://github.com/YOUR_USERNAME/ai-infrastructure-projects" ;;
            print "" ;;
            response ← input prompt;
            if negb (String.eqb (PyStr.lower response) "y") then sys_exit 0 else mret tt)
      {| fs := fs w; stdin := stdin w; trace := (trace w ++ t0) ++ t1 |}
      (performs_print_info _)) as ([] & t2 & -> & Hf2 & Hi2).
    cbn [fs stdin trace].
    destruct (bind_silent (print_info "  git remote add origin https://github.com/YOUR_USERNAME/ai-infrastructure-projects")
      (λ _, print "" ;;
            response ← input prompt;
            if negb (String.eqb (PyStr.lower response) "y") then sys_exit 0 else mret tt)
      {| fs := fs w; stdin := stdin w; trace := ((trace w ++ t0) ++ t1) ++ t2 |}
      (performs_print_info _)) as ([] & t3 & -> & Hf3 & Hi3).
    cbn [fs stdin trace].
    destruct (bind_silent (print "")
      (λ _, response ← input prompt;
            if negb (String.eqb (PyStr.lower response) "y") then sys_exit 0 else mret tt)
      {| fs := fs w; stdin := stdin w; trace := (((trace w ++ t0) ++ t1) ++ t2) ++ t3 |}
      (performs_print _)) as ([] & t4 & -> & Hf4 & Hi4).
    cbn [fs stdin trace].
    set (silent := t0 ++ t1 ++ t2 ++ t3 ++ t4).
    assert (fs_events silent = [] ∧ inputs silent = []) as [Hfs Hin].
    { unfold silent. rewrite !fs_events_app, !inputs_app.
      by rewrite Hf0, Hf1, Hf2, Hf3, Hf4, Hi0, Hi1, Hi2, Hi3, Hi4. }
    replace (((((trace w ++ t0) ++ t1) ++ t2) ++ t3) ++ t4) with (trace w ++ silent)
      by (unfold silent; by rewrite !app_assoc).
    cbv beta. rewrite bind_run. cbv [input log]. cbn [fs stdin trace].
    destruct (stdin w) as [|response rest_in].
    + exists (silent ++ [EvInput prompt]). cbn [fst snd fs stdin trace tail].
      rewrite inputs_app, Hin, app_assoc. split_and!; [done..|].
      unfold stopped. cbn [fst snd fs]. by rewrite fs_events_app, Hfs.
    + destruct (String.eqb (PyStr.lower response) "y"); cbn [negb sys_exit mret M_ret].
      * destruct (Hrest {| fs := fs w; stdin := rest_in;
                           trace := (trace w ++ silent) ++ [EvInput prompt] |})
          as (t & Htr & Hin' & Hi & Hrun). cbn [fs stdin trace] in *.
        exists ((silent ++ [EvInput prompt]) ++ t). cbn [tail].
        rewrite Htr, Hin', !inputs_app, Hin, Hi, !app_assoc.
        split_and!; [done..|].
        apply (ran_silent_prefix _ _ _ _ _ _ eq_refl).
        { by rewrite fs_events_app, Hfs. }
        unfold ran. cbn [fs]. destruct (run_ops ops (fs w)); [done|].
        destruct Hrun as ([[] ?] & ? & ?). done.
      * exists (silent ++ [EvInput prompt]). cbn [fst snd fs stdin trace tail].
        rewrite inputs_app, Hin, app_assoc. split_and!; [done..|].
        unfold stopped. cbn [fst snd fs]. by rewrite fs_events_app, Hfs.
Qed.

(** The behaviour of [main] on any world. *)
Lemma main_behaves w : behaves plan w (main w).
Proof. destruct main_gated as (rest & -> & Hrest). by apply gated_behaves. Qed.

Lemma plan_consistent : consistent plan = true.
Proof. vm_compute. reflexivity. Qed.

Lemma plan_written_once : written_once plan = true.
Proof. vm_compute. reflexivity. Qed.

End main_run.

(** ** Consequences for runs of [main] *)

Section runs.
Implicit Types (w : world) (d : gmap string node).

(** The tree fits the layout exactly when the plan runs through. *)
Lemma run_op_free_back o o' d d' :
  run_op o d = inr d' → op_free d' o' = true → op_free d o' = true.
Proof.
  intros Hrun Hfree.
  assert (∀ q s, stat d q = Some (EFile s) → ∃ s', stat d' q = Some (EFile s')) as Hfiles.
  { intros q s Hq. destruct (decide (file_target o = Some q)) as [Hf|Hf].
    - destruct o as [directory|filepath content]; [done|]. injection Hf as <-.
      exists content. rewrite (run_create_stat _ _ _ _ _ Hrun). by rewrite decide_True.
    - exists s. by eapply run_op_file_stable. }
  assert (free_for_dir d' (dir_target o') = true → free_for_dir d (dir_target o') = true)
    as Hback.
  { intros Hf. apply free_for_dir_stat. intros q s Hq Hs.
    destruct (Hfiles _ _ Hs) as [s' Hs']. by eapply free_for_dir_no_file. }
  destruct o' as [directory|filepath content]; simpl in *; [by apply Hback|].
  apply andb_true_iff in Hfree as [Hfree Hnd]. apply andb_true_iff. split; [by apply Hback|].
  apply negb_true_iff in Hnd. apply negb_true_iff.
  unfold is_dir in *. rewrite bool_decide_eq_false in Hnd |- *.
  intros Hd. apply Hnd. by eapply run_op_dir_stable.
Qed.

Lemma run_ops_free ops d d' :
  run_ops ops d = inr d' → forallb (op_free d) ops = true.
Proof.
  revert d. induction ops as [|o ops IH]; intros d Hrun; [done|].
  simpl in *. destruct (run_op o d) as [e|d1] eqn:Ho; [done|].
  rewrite (run_op_free _ _ _ Ho). simpl.
  specialize (IH _ Hrun). rewrite forallb_forall in IH |- *.
  intros o' Hin. eapply run_op_free_back; [done|]. by apply IH.
Qed.

Lemma plan_runs_iff d : (∃ d', run_ops plan d = inr d') ↔ fits d = true.
Proof.
  split.
  - intros [d' Hrun]. by eapply run_ops_free.
  - apply run_ops_ok, plan_consistent.
Qed.

Lemma proceeds_cases w :
  proceeds w = true ↔
  has_git w = true ∨
  (has_git w = false ∧ ∃ response rest,
      stdin w = response :: rest ∧ String.eqb (PyStr.lower response) "y" = true).
Proof.
  unfold proceeds, confirms. destruct (has_git w); simpl.
  { split; [by left|done]. }
  destruct (stdin w) as [|response rest].
  - split; [done|]. intros [?|(_ & ? & ? & ? & _)]; done.
  - split.
    + intros Hy. right. split; [done|]. by exists response, rest.
    + intros [?|(_ & ? & ? & [= <- <-] & Hy)]; done.
Qed.

(** A run that gets past the gate makes the calls of the plan. *)
Lemma main_proceeds w :
  proceeds w = true →
  ∃ t, trace (main w).2 = trace w ++ t ∧ ran plan w (main w) t ∧
       inputs t = (if has_git w then [] else [EvInput prompt]) ∧
       stdin (main w).2 = (if has_git w then stdin w else tail (stdin w)).
Proof.
  intros Hp. destruct (main_behaves w) as (t & Htr & H). exists t. split; [done|].
  apply proceeds_cases in Hp as [Hg|(Hg & response & rest & Hin & Hy)];
    rewrite Hg in *; destruct H as (Hi & Hs & H).
  - done.
  - rewrite Hin in H. rewrite Hy in H. done.
Qed.

(** A run that the user declines stops before any file-system call. *)
Lemma main_declined w :
  has_git w = false → declines w = true →
  ∃ t, trace (main w).2 = trace w ++ t ∧ stopped (Exit 0) w (main w) t ∧
       inputs t = [EvInput prompt] ∧ stdin (main w).2 = tail (stdin w).
Proof.
  intros Hg Hd. destruct (main_behaves w) as (t & Htr & H). exists t. split; [done|].
  rewrite Hg in H. unfold declines in Hd.
  destruct (stdin w) as [|response rest]; [done|].
  apply negb_true_iff in Hd. rewrite Hd in H. by destruct H as (? & ? & ?).
Qed.

(** A run returns only if it got past the gate, and then the plan ran
    through. *)
Lemma main_returned w :
  (main w).1 = Ret tt →
  proceeds w = true ∧ run_ops plan (fs w) = inr (fs (main w).2) ∧
  ∃ t, trace (main w).2 = trace w ++ t ∧ fs_events t = plan_events.
Proof.
  intros Hret. destruct (main_behaves w) as (t & Htr & H).
  assert (ran plan w (main w) t →
          run_ops plan (fs w) = inr (fs (main w).2) ∧ fs_events t = plan_events) as Hran.
  { unfold ran. destruct (run_ops plan (fs w)) as [e|d].
    - intros [He _]. congruence.
    - intros (_ & -> & ->). by rewrite plan_events_eq. }
  unfold proceeds, confirms. destruct (has_git w); destruct H as (_ & _ & H).
  - destruct (Hran H). eauto.
  - destruct (stdin w) as [|response rest].
    + destruct H as [H _]. congruence.
    + destruct (String.eqb (PyStr.lower response) "y").
      * destruct (Hran H). eauto.
      * destruct H as [H _]. congruence.
Qed.

(** A run returns exactly when it gets past the gate on a tree that fits
    the layout. *)
Lemma main_returns_iff w :
  (main w).1 = Ret tt ↔ proceeds w = true ∧ fits (fs w) = true.
Proof.
  split.
  - intros Hret. destruct (main_returned w Hret) as (Hp & Hrun & _).
    split; [done|]. apply plan_runs_iff. eauto.
  - intros [Hp Hfit]. destruct (main_proceeds w Hp) as (t & _ & Hran & _).
    apply plan_runs_iff in Hfit as [d' Hrun]. unfold ran in Hran.
    rewrite Hrun in Hran. by destruct Hran.
Qed.

Lemma file_in_plan filepath content :
  (filepath, content) ∈ FILES → OpCreate filepath content ∈ plan.
Proof.
  intros Hin. unfold plan. rewrite !elem_of_app, !list_elem_of_fmap.
  right; left. by exists (filepath, content).
Qed.

Lemma placeholder_in_plan filepath description :
  (filepath, description) ∈ placeholders →
  OpCreate filepath (format placeholder_template description) ∈ plan.
Proof.
  intros Hin. unfold plan. rewrite !elem_of_app, !list_elem_of_fmap.
  right; right; left. by exists (filepath, description).
Qed.

Lemma directory_in_plan directory :
  directory ∈ directories → OpMkdir directory ∈ plan.
Proof.
  intros Hin. unfold plan. rewrite !elem_of_app, !list_elem_of_fmap.
  left. by exists directory.
Qed.

(** After a run that returned, every file the plan creates holds what the
    plan wrote last on its path, and the plan writes each path once. *)
Lemma main_created w filepath content :
  (main w).1 = Ret tt → OpCreate filepath content ∈ plan →
  read_text (fs (main w).2) (Path filepath) = Some content.
Proof.
  intros Hret Hin. destruct (main_returned w Hret) as (_ & Hrun & _).
  unfold read_text.
  rewrite (run_ops_final _ _ _ _ content Hrun); [done|].
  by apply written_once_spec; [apply plan_written_once|].
Qed.

End runs.

(** ** Strings *)

Section strings.
Implicit Types (s t sub : string).

Lemma contains_unfold sub s :
  PyStr.contains sub s =
  PyStr.startswith sub s ||
  match s with
  | EmptyString => false
  | String _ s' => PyStr.contains sub s'
  end.
Proof. by destruct s. Qed.

Lemma append_cons c s t : String c s +:+ t = String c (s +:+ t).
Proof. done. Qed.


Lemma length_append s t : String.length (s +:+ t) = String.length s + String.length t.
Proof. induction s as [|c s IH]; [done|]. rewrite append_cons. simpl. by rewrite IH. Qed.

Lemma startswith_app s t : PyStr.startswith s (s +:+ t) = true.
Proof.
  induction s as [|c s IH]; [done|]. rewrite append_cons. simpl.
  by rewrite Ascii.eqb_refl.
Qed.

Lemma contains_app_l s t : PyStr.contains s (s +:+ t) = true.
Proof. by rewrite contains_unfold, startswith_app. Qed.

Lemma contains_app_r sub s t :
  PyStr.contains sub t = true → PyStr.contains sub (s +:+ t) = true.
Proof.
  intros H. induction s as [|c s IH]; [done|].
  rewrite append_cons, contains_unfold, IH. apply orb_true_r.
Qed.

(** A formatted string with a replacement field contains the value. *)
Lemma contains_format parts value :
  Field ∈ parts → PyStr.contains value (format parts value) = true.
Proof.
  induction parts as [|part parts IH]; intros Hin; [by apply elem_of_nil in Hin|].
  destruct part as [text|]; simpl.
  - apply contains_app_r, IH. by apply elem_of_cons in Hin as [|].
  - apply contains_app_l.
Qed.

Lemma length_format parts value :
  String.length (format parts value) =
  String.length (format parts "") + fields parts * String.length value.
Proof.
  induction parts as [|part parts IH]; [done|].
  destruct part as [text|]; simpl format; rewrite !length_append, IH; simpl; lia.
Qed.

Lemma lower_ascii_y c : PyStr.lower_ascii c = "y"%char ↔ c = "y"%char ∨ c = "Y"%char.
Proof.
  destruct c as [[] [] [] [] [] [] [] []]; vm_compute;
    (split;
     [ intros H; first [discriminate H | by left | by right]
     | intros [H|H]; first [discriminate H | reflexivity] ]).
Qed.

(** The answers that pass the gate. *)
Lemma lower_y response : PyStr.lower response = "y" ↔ response = "y" ∨ response = "Y".
Proof.
  destruct response as [|c [|c' rest]]; simpl.
  - split; [done|]. by intros [|].
  - split.
    + intros H. injection H as H. apply lower_ascii_y in H as [->| ->]; auto.
    + by intros [[= ->]|[= ->]].
  - split; [done|]. by intros [|].
Qed.

End strings.

(** ** The claims *)

Example Path_examples :
  Path "terraform/aws" = ["terraform"; "aws"] ∧ Path ".git" = [".git"] ∧
  Path "a//b/./c/" = ["a"; "b"; "c"] ∧ parent (Path "README.md") = [] ∧
  parent (Path "docs/ARCHITECTURE.md") = ["docs"].
Proof. by vm_compute. Qed.

Example fresh_run_returns : (main (fresh_dir ["y"])).1 = Ret tt.
Proof. by vm_compute. Qed.

Example fresh_run_declined : (main (fresh_dir ["n"])).1 = Exit 0.
Proof. by vm_compute. Qed.

Example fresh_run_no_answer : (main (fresh_dir [])).1 = Raise EOFError.
Proof. by vm_compute. Qed.

Example docs_in_the_way : (main docs_is_a_file).1 = Raise FileExistsError.
Proof. by vm_compute. Qed.

(** C1: with no [.git] entry in the working directory and a user who
    declines the prompt, [main] exits without creating any file or
    directory: the tree is exactly what it was before the run, and no
    [mkdir] or [write_text] call was made. *)
Theorem decline_creates_nothing w :
  has_git w = false → declines w = true →
  (main w).1 = Exit 0 ∧ fs (main w).2 = fs w ∧
  ∃ t, trace (main w).2 = trace w ++ t ∧ fs_events t = [].
Proof.
  intros Hg Hd.
  destruct (main_declined w Hg Hd) as (t & Htr & (Hexit & Hfs & Hev) & _).
  eauto.
Qed.

Lemma decline_creates_nothing_witness :
  (main (fresh_dir ["n"])).1 = Exit 0 ∧
  fs (main (fresh_dir ["n"])).2 = fs (fresh_dir ["n"]) ∧
  ∃ t, trace (main (fresh_dir ["n"])).2 = trace (fresh_dir ["n"]) ++ t ∧ fs_events t = [].
Proof. apply (decline_creates_nothing (fresh_dir ["n"])); vm_compute; reflexivity. Defined.

(** C2: after a run that completed, every path of the literal-file table
    [FILES] is a regular file whose contents are exactly the table's
    content, whatever was at that path before the run. *)
Theorem literal_files_exact w filepath content :
  (main w).1 = Ret tt → (filepath, content) ∈ FILES →
  read_text (fs (main w).2) (Path filepath) = Some content.
Proof.
  intros Hret Hin. apply main_created; [done|]. by apply file_in_plan.
Qed.

Lemma literal_files_exact_witness :
  read_text (fs stale_readme) (Path "README.md") = Some "# old notes" ∧
  read_text (fs (main stale_readme).2) (Path "README.md") = Some README_md.
Proof.
  split; [vm_compute; reflexivity|].
  apply (literal_files_exact stale_readme "README.md" README_md).
  - vm_compute; reflexivity.
  - unfold FILES. apply elem_of_cons. by left.
Defined.

(** C3, as the code has it: the document [create_placeholder_note] writes
    is a fixed template with exactly three replacement fields, all holding
    the description: the title after [# ], the artifact title in double
    quotes in step 2 of the instructions, and the paragraph under [File
    Purpose]. *)
Theorem placeholder_embeds_description_three_times filename description w :
  (create_placeholder_note filename description w).1 = Ret tt →
  ∃ after_title after_quote after_paragraph,
    placeholder_template =
      [Lit "# "; Field; Lit after_title; Field; Lit after_quote; Field;
       Lit after_paragraph] ∧
    PyStr.startswith newline after_title = true ∧
    PyStr.endswith dquote after_title = true ∧
    PyStr.startswith dquote after_quote = true ∧
    PyStr.endswith (newline +:+ newline) after_quote = true ∧
    PyStr.startswith (newline +:+ newline) after_paragraph = true ∧
    read_text (fs (create_placeholder_note filename description w).2) (Path filename)
    = Some ("# " +:+ description +:+ after_title +:+ description +:+ after_quote +:+
            description +:+ after_paragraph).
Proof.
  intros Hret.
  destruct (performs_create_placeholder_note filename description w)
    as (t & _ & _ & _ & Hrun).
  cbn [run_ops run_op placeholder_op fst snd] in Hrun.
  destruct (makedirs (fs w) (parent (Path filename))) as [e|d1] eqn:Hm.
  { destruct Hrun as [He _]. congruence. }
  destruct (write_at d1 (Path filename) (format placeholder_template description))
    as [e|d2] eqn:Hw.
  { destruct Hrun as [He _]. congruence. }
  destruct Hrun as (_ & -> & _).
  unfold read_text. rewrite (stat_write_at _ _ _ _ _ Hw), decide_True by done.
  eexists _, _, _. split_and!; [reflexivity|vm_compute; reflexivity..|reflexivity].
Qed.

Lemma placeholder_embeds_description_three_times_witness :
  ∃ after_title after_quote after_paragraph,
    placeholder_template =
      [Lit "# "; Field; Lit after_title; Field; Lit after_quote; Field;
       Lit after_paragraph] ∧
    PyStr.startswith newline after_title = true ∧
    PyStr.endswith dquote after_title = true ∧
    PyStr.startswith dquote after_quote = true ∧
    PyStr.endswith (newline +:+ newline) after_quote = true ∧
    PyStr.startswith (newline +:+ newline) after_paragraph = true ∧
    read_text (fs (create_placeholder_note "inference/Dockerfile" "Project D" (fresh_dir [])).2)
              (Path "inference/Dockerfile")
    = Some ("# " +:+ "Project D" +:+ after_title +:+ "Project D" +:+ after_quote +:+
            "Project D" +:+ after_paragraph).
Proof.
  apply (placeholder_embeds_description_three_times
           "inference/Dockerfile" "Project D" (fresh_dir [])).
  vm_compute; reflexivity.
Defined.

(** C3 as stated fails: the description is embedded three times, not
    twice.  The template has three fields, the description of a row of the
    placeholder table occurs at three positions of its document, and no
    template with two fields yields the documents for all
    descriptions. *)
Lemma placeholder_not_twice :
  fields placeholder_template = 3 ∧
  PyStr.occurrences "Project B - Complete Distributed Training Implementation"
    (format placeholder_template
       "Project B - Complete Distributed Training Implementation") = 3 ∧
  ¬ ∃ a b c, ∀ description,
      format placeholder_template description
      = a +:+ description +:+ b +:+ description +:+ c.
Proof.
  split_and!; [vm_compute; reflexivity..|].
  intros (a & b & c & H).
  pose proof (f_equal String.length (H "")) as H0.
  pose proof (f_equal String.length (H "x")) as H1.
  rewrite length_format, !length_append in H0, H1.
  change (fields placeholder_template) with 3 in H0, H1.
  simpl String.length in H0, H1.
  destruct (String.length (format placeholder_template "")); lia.
Qed.

(** C4 as stated fails: declining ends the run with status 0, the status
    of a run that completed, not with one that reports abnormal
    termination. *)
Lemma decline_exit_status_is_zero :
  has_git (fresh_dir ["n"]) = false ∧ declines (fresh_dir ["n"]) = true ∧
  exit_status (main (fresh_dir ["n"])).1 = 0%Z ∧
  exit_status (main (fresh_dir ["y"])).1 = 0%Z ∧
  ¬ abnormal (main (fresh_dir ["n"])).1.
Proof. split_and!; [vm_compute; reflexivity..|]. intros H. by apply H. Qed.

(** C4, as the code has it: when the user declines the prompt, [main]
    exits early through [sys.exit(0)], with status 0; when the run gets
    past the gate it makes every call of the plan and returns, with status
    0, provided no call raises, which is the case exactly when the tree
    fits the layout; otherwise the exception of the first call that raises
    ends the run with status 1. *)
Theorem exit_status_of_a_run w :
  (has_git w = false → declines w = true →
     (main w).1 = Exit 0 ∧ exit_status (main w).1 = 0%Z) ∧
  (proceeds w = true → fits (fs w) = true →
     (main w).1 = Ret tt ∧ exit_status (main w).1 = 0%Z ∧
     ∃ t, trace (main w).2 = trace w ++ t ∧ fs_events t = plan_events) ∧
  (proceeds w = true → fits (fs w) = false →
     ∃ e, (main w).1 = Raise e ∧ exit_status (main w).1 = 1%Z).
Proof.
  split; [|split].
  - intros Hg Hd. destruct (main_declined w Hg Hd) as (t & _ & (Hexit & _) & _).
    by rewrite Hexit.
  - intros Hp Hfit. assert ((main w).1 = Ret tt) as Hret by by apply main_returns_iff.
    destruct (main_returned w Hret) as (_ & _ & Ht). by rewrite Hret.
  - intros Hp Hfit. destruct (main_proceeds w Hp) as (t & _ & Hran & _).
    unfold ran in Hran. destruct (run_ops plan (fs w)) as [e|d] eqn:Hrun.
    + destruct Hran as [Hraise _]. exists e. by rewrite Hraise.
    + assert (fits (fs w) = true) by (apply plan_runs_iff; eauto). congruence.
Qed.

Lemma exit_status_of_a_run_witness :
  ((main (fresh_dir ["no"])).1 = Exit 0 ∧ exit_status (main (fresh_dir ["no"])).1 = 0%Z) ∧
  ((main (fresh_dir ["Y"])).1 = Ret tt ∧ exit_status (main (fresh_dir ["Y"])).1 = 0%Z ∧
   ∃ t, trace (main (fresh_dir ["Y"])).2 = trace (fresh_dir ["Y"]) ++ t ∧
        fs_events t = plan_events) ∧
  (∃ e, (main docs_is_a_file).1 = Raise e ∧ exit_status (main docs_is_a_file).1 = 1%Z).
Proof.
  split; [|split].
  - apply (proj1 (exit_status_of_a_run (fresh_dir ["no"]))); vm_compute; reflexivity.
  - apply (proj1 (proj2 (exit_status_of_a_run (fresh_dir ["Y"])))); vm_compute; reflexivity.
  - apply (proj2 (proj2 (exit_status_of_a_run docs_is_a_file))); vm_compute; reflexivity.
Defined.

(** C5: running [main] a second time on the tree a completed run left,
    with confirmation granted again, completes and leaves that tree as it
    is: every file holds after the second run what it held after the
    first. *)
Theorem second_run_changes_nothing w w2 :
  (main w).1 = Ret tt → fs w2 = fs (main w).2 → proceeds w2 = true →
  (main w2).1 = Ret tt ∧ fs (main w2).2 = fs (main w).2 ∧
  ∀ p, read_text (fs (main w2).2) p = read_text (fs (main w).2) p.
Proof.
  intros Hret Hfs Hp.
  destruct (main_returned w Hret) as (_ & Hrun & _).
  pose proof (run_ops_idempotent _ _ _ plan_written_once Hrun) as Hagain.
  destruct (main_proceeds w2 Hp) as (t & _ & Hran & _).
  unfold ran in Hran. rewrite Hfs, Hagain in Hran. destruct Hran as (Hret2 & Hfs2 & _).
  split_and!; [done..|]. intros p. by rewrite Hfs2.
Qed.

Lemma second_run_changes_nothing_witness :
  (main (main (fresh_dir ["y"; "y"])).2).1 = Ret tt ∧
  fs (main (main (fresh_dir ["y"; "y"])).2).2 = fs (main (fresh_dir ["y"; "y"])).2 ∧
  ∀ p, read_text (fs (main (main (fresh_dir ["y"; "y"])).2).2) p
       = read_text (fs (main (fresh_dir ["y"; "y"])).2) p.
Proof.
  apply (second_run_changes_nothing (fresh_dir ["y"; "y"]) (main (fresh_dir ["y"; "y"])).2).
  - vm_compute; reflexivity.
  - reflexivity.
  - vm_compute; reflexivity.
Defined.



(** C7: after a run that completed, every path of the placeholder table is
    a regular file whose contents contain the table's description; in
    particular [training/src/train_distributed.py] contains [Project B -
    Complete Distributed Training Implementation]. *)
Theorem placeholders_contain_description w :
  (main w).1 = Ret tt →
  (∀ filepath description,
     (filepath, description) ∈ placeholders →
     ∃ content, read_text (fs (main w).2) (Path filepath) = Some content ∧
                PyStr.contains description content = true) ∧
  (∃ content,
     read_text (fs (main w).2) (Path "training/src/train_distributed.py") = Some content ∧
     PyStr.contains "Project B - Complete Distributed Training Implementation" content = true).
Proof.
  intros Hret.
  assert (∀ filepath description,
     (filepath, description) ∈ placeholders →
     ∃ content, read_text (fs (main w).2) (Path filepath) = Some content ∧
                PyStr.contains description content = true) as Hall.
  { intros filepath description Hin.
    exists (format placeholder_template description). split.
    - apply main_created; [done|]. by apply placeholder_in_plan.
    - apply contains_format. unfold placeholder_template. in_list. }
  split; [done|]. apply Hall. unfold placeholders. in_list.
Qed.

Lemma placeholders_contain_description_witness :
  ∃ content,
    read_text (fs (main (fresh_dir ["y"])).2) (Path "training/src/train_distributed.py")
    = Some content ∧
    PyStr.contains "Project B - Complete Distributed Training Implementation" content = true.
Proof.
  apply (placeholders_contain_description (fresh_dir ["y"])).
  vm_compute; reflexivity.
Defined.

(** C8: the file-system calls of a run are made in one fixed order: the
    directories of the list, then [create_file] for every entry of [FILES]
    in table order, then for every entry of the placeholder table in table
    order, then for the setup instructions and the quick reference.  A run
    makes a prefix of that sequence, and all of it when it completes. *)
Theorem writes_in_fixed_order w :
  plan_events =
    (EvMkdir ∘ Path <$> directories) ++
    (FILES ≫= λ item, create_events item.1 item.2) ++
    (placeholders ≫= λ item, create_events item.1 (format placeholder_template item.2)) ++
    create_events "docs/SETUP_INSTRUCTIONS.md" setup_instructions ++
    create_events "docs/QUICK_REFERENCE.md" quick_ref ∧
  ∃ t, trace (main w).2 = trace w ++ t ∧
       fs_events t `prefix_of` plan_events ∧
       ((main w).1 = Ret tt → fs_events t = plan_events).
Proof.
  split; [reflexivity|].
  destruct (main_behaves w) as (t & Htr & H). exists t. split; [done|].
  assert (ran plan w (main w) t →
          fs_events t `prefix_of` plan_events ∧
          ((main w).1 = Ret tt → fs_events t = plan_events)) as Hran.
  { unfold ran. rewrite plan_events_eq. destruct (run_ops plan (fs w)) as [e|d].
    - intros [Hraise Hpre]. split; [done|]. congruence.
    - intros (_ & _ & ->). done. }
  assert (∀ o, o ≠ Ret tt → stopped o w (main w) t →
          fs_events t `prefix_of` plan_events ∧
          ((main w).1 = Ret tt → fs_events t = plan_events)) as Hstop.
  { intros o Ho (Hout & _ & ->). split; [apply prefix_nil|]. congruence. }
  destruct (has_git w); destruct H as (_ & _ & H); [by apply Hran|].
  destruct (stdin w) as [|response rest]; [by apply (Hstop (Raise EOFError))|].
  destruct (String.eqb (PyStr.lower response) "y");
    [by apply Hran|by apply (Hstop (Exit 0))].
Qed.

Lemma writes_in_fixed_order_witness :
  ∃ t, trace (main (fresh_dir ["y"])).2 = trace (fresh_dir ["y"]) ++ t ∧
       fs_events t = plan_events.
Proof.
  destruct (writes_in_fixed_order (fresh_dir ["y"])) as (_ & t & Htr & _ & Hall).
  exists t. split; [done|]. apply Hall. vm_compute; reflexivity.
Defined.

(** C9: at the prompt the run goes on only when the answer, lowercased, is
    exactly [y], that is for [y] and [Y]; any other answer, among them
    [yes], an answer with spaces, the empty line, [n] and [no], ends the
    run through the same exit, with nothing written. *)
Theorem only_y_confirms w response rest :
  has_git w = false → stdin w = response :: rest →
  (PyStr.lower response = "y" ↔ response = "y" ∨ response = "Y") ∧
  (PyStr.lower response = "y" →
     (∀ status, (main w).1 ≠ Exit status) ∧
     ((main w).1 = Ret tt ↔ fits (fs w) = true) ∧
     ∃ t, trace (main w).2 = trace w ++ t ∧ ran plan w (main w) t) ∧
  (PyStr.lower response ≠ "y" →
     (main w).1 = Exit 0 ∧ fs (main w).2 = fs w ∧
     ∃ t, trace (main w).2 = trace w ++ t ∧ fs_events t = []) ∧
  Forall (λ answer, PyStr.lower answer ≠ "y")
         ["yes"; "Y es"; " y"; "y "; ""; "n"; "no"; "N"; "NO"; "yy"].
Proof.
  intros Hg Hin. split_and!.
  - apply lower_y.
  - intros Hy.
    assert (proceeds w = true) as Hp.
    { unfold proceeds, confirms. rewrite Hg, Hin. simpl. by apply String.eqb_eq. }
    destruct (main_proceeds w Hp) as (t & Htr & Hran & _). split_and!.
    + intros status Hexit. unfold ran in Hran.
      destruct (run_ops plan (fs w)); destruct Hran as [Hout _]; congruence.
    + rewrite main_returns_iff. split; [by intros [_ ?]|done].
    + eauto.
  - intros Hn.
    assert (declines w = true) as Hd.
    { unfold declines. rewrite Hin. apply negb_true_iff. by apply String.eqb_neq. }
    destruct (main_declined w Hg Hd) as (t & Htr & (Hexit & Hfs & Hev) & _). eauto.
  - repeat constructor; by vm_compute.
Qed.

Lemma only_y_confirms_witness :
  (PyStr.lower "yes" = "y" ↔ "yes" = "y" ∨ "yes" = "Y") ∧
  (PyStr.lower "yes" = "y" →
     (∀ status, (main (fresh_dir ["yes"])).1 ≠ Exit status) ∧
     ((main (fresh_dir ["yes"])).1 = Ret tt ↔ fits (fs (fresh_dir ["yes"])) = true) ∧
     ∃ t, trace (main (fresh_dir ["yes"])).2 = trace (fresh_dir ["yes"]) ++ t ∧
          ran plan (fresh_dir ["yes"]) (main (fresh_dir ["yes"])) t) ∧
  (PyStr.lower "yes" ≠ "y" →
     (main (fresh_dir ["yes"])).1 = Exit 0 ∧
     fs (main (fresh_dir ["yes"])).2 = fs (fresh_dir ["yes"]) ∧
     ∃ t, trace (main (fresh_dir ["yes"])).2 = trace (fresh_dir ["yes"]) ++ t ∧
          fs_events t = []) ∧
  Forall (λ answer, PyStr.lower answer ≠ "y")
         ["yes"; "Y es"; " y"; "y "; ""; "n"; "no"; "N"; "NO"; "yy"].
Proof.
  apply (only_y_confirms (fresh_dir ["yes"]) "yes" []).
  - vm_compute; reflexivity.
  - reflexivity.
Defined.

(** C10: the prompt is skipped exactly when the working directory has an
    entry named [.git], be it a directory or a regular file; with such an
    entry the run reads nothing from standard input and goes straight to
    the calls of the plan, all of which it makes when none raises. *)
Theorem git_entry_skips_prompt w :
  (has_git w = true ↔ is_Some (fs w !! ".git")) ∧
  ∃ t, trace (main w).2 = trace w ++ t ∧
       (inputs t = [] ↔ has_git w = true) ∧
       (has_git w = false → inputs t = [EvInput prompt]) ∧
       (has_git w = true →
          stdin (main w).2 = stdin w ∧ ran plan w (main w) t ∧
          ((main w).1 = Ret tt ↔ fits (fs w) = true) ∧
          (fits (fs w) = true → fs_events t = plan_events)).
Proof.
  split.
  { unfold has_git, exists_. change (Path ".git") with [".git"]. simpl.
    rewrite bool_decide_eq_true.
    destruct (fs w !! ".git") as [[content|children]|]; simpl;
      (split; [intros [? ?]|intros [? ?]]; by eauto). }
  destruct (main_behaves w) as (t & Htr & H). exists t. split; [done|].
  destruct (has_git w) eqn:Hg.
  - destruct H as (Hi & Hin & Hran). split_and!; [done|done|].
    intros _. split_and!; [done..| |].
    + rewrite main_returns_iff. unfold proceeds. rewrite Hg. simpl.
      split; [by intros [_ ?]|done].
    + intros Hfit. apply plan_runs_iff in Hfit as [d Hrun].
      unfold ran in Hran. rewrite Hrun in Hran.
      destruct Hran as (_ & _ & ->). apply plan_events_eq.
  - destruct H as (Hi & _). rewrite Hi. split_and!; done.
Qed.

Lemma git_entry_skips_prompt_witness :
  (has_git git_worktree = true ∧ has_git git_repository = true) ∧
  (main git_worktree).1 = Ret tt ∧ stdin (main git_worktree).2 = stdin git_worktree ∧
  ∃ t, trace (main git_worktree).2 = trace git_worktree ++ t ∧ inputs t = [] ∧
       fs_events t = plan_events.
Proof.
  destruct (git_entry_skips_prompt git_worktree) as (_ & t & Htr & Hi & _ & Hrun).
  destruct Hrun as (Hin & _ & Hret & Hev); [vm_compute; reflexivity|].
  split_and!; [vm_compute; reflexivity..| | |].
  - apply Hret. vm_compute; reflexivity.
  - done.
  - exists t. split_and!; [done| |].
    + apply Hi. vm_compute; reflexivity.
    + apply Hev. vm_compute; reflexivity.
Defined.

(** ** More on the file-system operations *)

Section tree_errors.
Implicit Types (d ch : gmap string node) (p q : path) (c : string).



(** Below a directory, [write_at] can only raise on a directory. *)
Lemma write_at_error d p content e :
  stat d (parent p) = Some EDir → write_at d p content = inl e →
  e = IsADirectoryError ∧ stat d p = Some EDir.
Proof.
  revert d. induction p as [|c p IH]; intros d Hpar H.
  - by injection H as <-.
  - destruct p as [|c2 p2].
    + simpl in *. destruct (d !! c) as [[s|ch]|]; [done| |done]. by injection H as <-.
    + change (parent (c :: c2 :: p2)) with (c :: parent (c2 :: p2)) in Hpar.
      rewrite stat_cons in Hpar. rewrite write_at_deep in H. rewrite stat_cons.
      destruct (d !! c) as [[s|ch]|]; [by destruct (parent _)| |done].
      destruct (write_at ch (c2 :: p2) content) as [e'|ch'] eqn:Hw; [|done].
      injection H as ->. by eapply IH.
Qed.

(** The second of two writes to a path wins. *)
Lemma write_at_twice d p c1 c2 d1 :
  write_at d p c1 = inr d1 → write_at d1 p c2 = write_at d p c2.
Proof.
  revert d d1. induction p as [|c p IH]; intros d d1 H; [done|].
  destruct p as [|c' p'].
  - simpl in *.
    destruct (d !! c) as [[s|ch]|] eqn:E; [|done|]; injection H as <-;
      rewrite lookup_insert_eq; by rewrite insert_insert_eq.
  - rewrite write_at_deep in H. rewrite !write_at_deep.
    destruct (d !! c) as [[s|ch]|] eqn:E; [done| |done].
    destruct (write_at ch (c' :: p') c1) as [e|ch1] eqn:Hw; [done|]. injection H as <-.
    rewrite lookup_insert_eq, (IH _ _ Hw).
    destruct (write_at ch (c' :: p') c2) as [e|ch2]; [done|].
    by rewrite insert_insert_eq.
Qed.

End tree_errors.

(** ** [create_file] *)

Section create_file.
Implicit Types (w : world) (d : gmap string node).

(** An [OpCreate] that raises leaves no trace in the tree: when the write
    raises, the parent was there already. *)
Lemma create_unchanged filepath content d d1 e :
  makedirs d (parent (Path filepath)) = inr d1 →
  write_at d1 (Path filepath) content = inl e →
  d1 = d ∧ e = IsADirectoryError ∧ stat d (Path filepath) = Some EDir.
Proof.
  intros Hm Hw.
  assert (stat d1 (parent (Path filepath)) = Some EDir) as Hpar.
  { rewrite (stat_makedirs _ _ _ _ Hm). by rewrite decide_True. }
  destruct (write_at_error _ _ _ _ Hpar Hw) as [-> Hdir].
  assert (stat d (Path filepath) = Some EDir) as Hd.
  { destruct (decide (Path filepath = [])) as [->|Hne]; [done|].
    rewrite (stat_makedirs _ _ _ _ Hm) in Hdir.
    rewrite decide_False in Hdir; [done|]. by apply parent_not_prefix. }
  split_and!; [|done..].
  rewrite (makedirs_id _ _ (stat_parent _ _ _ Hd)) in Hm. by injection Hm.
Qed.

(** What a call of [create_file] comes to. *)
Lemma create_file_run filepath content w :
  create_file filepath content w =
  match makedirs (fs w) (parent (Path filepath)) with
  | inl e =>
      (Raise e, {| fs := fs w; stdin := stdin w;
                   trace := trace w ++ [EvMkdir (parent (Path filepath))] |})
  | inr d1 =>
      match write_at d1 (Path filepath) content with
      | inl e =>
          (Raise e, {| fs := fs w; stdin := stdin w;
                       trace := trace w ++ create_events filepath content |})
      | inr d2 =>
          (Ret tt, {| fs := d2; stdin := stdin w;
                      trace := trace w ++ create_events filepath content ++
                               [EvPrint (success_line filepath)] |})
      end
  end.
Proof.
  cbv [create_file mbind M_bind Path_mkdir Path_write_text print_success print log].
  cbn [fs stdin trace].
  destruct (makedirs (fs w) (parent (Path filepath))) as [e|d1] eqn:Hm; [done|].
  cbn [fs stdin trace].
  destruct (write_at d1 (Path filepath) content) as [e|d2] eqn:Hw.
  - destruct (create_unchanged _ _ _ _ _ Hm Hw) as (-> & _). by rewrite <- app_assoc.
  - cbn [fs stdin trace]. by rewrite <- !app_assoc.
Qed.

End create_file.






(** X4: of two calls of [create_file] on one path the second wins: after a
    call that returned, a second call returns too and leaves the tree that
    it alone would have left. *)
Theorem create_file_last_write_wins filepath first second w :
  (create_file filepath first w).1 = Ret tt →
  (create_file filepath second (create_file filepath first w).2).1 = Ret tt ∧
  fs (create_file filepath second (create_file filepath first w).2).2
  = fs (create_file filepath second w).2 ∧
  read_text (fs (create_file filepath second (create_file filepath first w).2).2)
            (Path filepath) = Some second.
Proof.
  rewrite (create_file_run filepath first w), (create_file_run filepath second w).
  destruct (makedirs (fs w) (parent (Path filepath))) as [e|d1] eqn:Hm; [done|].
  destruct (write_at d1 (Path filepath) first) as [e|d2] eqn:Hw; [done|].
  intros _. cbn [snd]. rewrite create_file_run. cbn [fs stdin trace].
  assert (stat d2 (Path filepath) = Some (EFile first)) as Hfile.
  { rewrite (stat_write_at _ _ _ _ _ Hw). by rewrite decide_True. }
  rewrite (makedirs_id _ _ (stat_parent _ _ _ Hfile)).
  rewrite (write_at_twice _ _ _ second _ Hw).
  destruct (write_at_ok d1 (Path filepath) second) as [d3 Hw2].
  { rewrite (stat_makedirs _ _ _ _ Hm). by rewrite decide_True. }
  { apply bool_decide_eq_false. by eapply write_at_not_dir. }
  rewrite Hw2. cbn [fst snd fs]. split_and!; [done..|].
  unfold read_text. rewrite (stat_write_at _ _ _ _ _ Hw2). by rewrite decide_True.
Qed.

Lemma create_file_last_write_wins_witness :
  (create_file "LICENSE" "GPL" (create_file "LICENSE" "MIT" (fresh_dir [])).2).1 = Ret tt ∧
  fs (create_file "LICENSE" "GPL" (create_file "LICENSE" "MIT" (fresh_dir [])).2).2
  = fs (create_file "LICENSE" "GPL" (fresh_dir [])).2 ∧
  read_text (fs (create_file "LICENSE" "GPL" (create_file "LICENSE" "MIT" (fresh_dir [])).2).2)
            (Path "LICENSE") = Some "GPL".
Proof.
  apply (create_file_last_write_wins "LICENSE" "MIT" "GPL" (fresh_dir [])).
  vm_compute; reflexivity.
Defined.

(** ** [create_directory_structure] *)

Section directory_structure.
Implicit Types (w : world) (d : gmap string node).

(** A regular file keeps existing through any sequence of operations. *)
Lemma run_ops_file_kept ops d d' q s :
  run_ops ops d = inr d' → stat d q = Some (EFile s) →
  ∃ s', stat d' q = Some (EFile s').
Proof.
  revert d s. induction ops as [|o ops IH]; intros d s Hrun Hq; simpl in Hrun.
  - injection Hrun as <-. eauto.
  - destruct (run_op o d) as [e|d1] eqn:Ho; [done|].
    destruct (decide (file_target o = Some q)) as [Hf|Hf].
    + destruct o as [directory|filepath content]; [done|]. injection Hf as <-.
      apply (IH d1 content); [done|].
      rewrite (run_create_stat _ _ _ _ _ Ho). by rewrite decide_True.
    + apply (IH d1 s); [done|]. by eapply run_op_file_stable.
Qed.

(** Sequences of [mkdir]s make no regular file and change none. *)
Lemma run_mkdirs_files ops d d' q s :
  Forall (λ o, file_target o = None) ops → run_ops ops d = inr d' →
  stat d' q = Some (EFile s) ↔ stat d q = Some (EFile s).
Proof.
  intros Hops. revert d. induction Hops as [|o ops Ho _ IH]; intros d Hrun; simpl in Hrun.
  - by injection Hrun as <-.
  - destruct o as [directory|filepath content]; [|done].
    destruct (run_op (OpMkdir directory) d) as [e|d1] eqn:Hm; [done|].
    rewrite (IH _ Hrun). split.
    + rewrite (run_mkdir_stat _ _ _ _ Hm). by case_decide.
    + by apply (run_op_file_stable (OpMkdir directory) d d1).
Qed.

Lemma directories_only_mkdir : Forall (λ o, file_target o = None) (OpMkdir <$> directories).
Proof. apply Forall_fmap, Forall_forall. by intros directory _. Qed.

Lemma directories_consistent : consistent (OpMkdir <$> directories) = true.
Proof. reflexivity. Qed.

Lemma directories_written_once : written_once (OpMkdir <$> directories) = true.
Proof. reflexivity. Qed.

Lemma directories_run w :
  match run_ops (OpMkdir <$> directories) (fs w) with
  | inr d => (create_directory_structure w).1 = Ret tt ∧
             fs (create_directory_structure w).2 = d
  | inl e => (create_directory_structure w).1 = Raise e
  end.
Proof.
  destruct (performs_create_directory_structure w) as (t & _ & _ & _ & H).
  destruct (run_ops (OpMkdir <$> directories) (fs w)) as [e|d].
  - by destruct H.
  - by destruct H as ([[] ?] & ? & _).
Qed.

(** Once [create_directory_structure] has returned, the directories of its
    list are there, with their ancestors. *)
Lemma directories_made w directory q :
  (create_directory_structure w).1 = Ret tt → directory ∈ directories →
  q `prefix_of` Path directory →
  stat (fs (create_directory_structure w).2) q = Some EDir.
Proof.
  intros Hret Hin Hq. pose proof (directories_run w) as Hrun.
  destruct (run_ops (OpMkdir <$> directories) (fs w)) as [e|d] eqn:Hops; [congruence|].
  destruct Hrun as [_ ->].
  apply (run_ops_dir _ _ _ (OpMkdir directory) _ Hops); [|done].
  apply list_elem_of_fmap. eauto.
Qed.

(** X5: [create_directory_structure] returns exactly when no regular file
    lies at or above a directory of its list.  When it returns, every
    directory of the list and every ancestor of one is a directory, every
    path reads as it did before (no regular file is made or changed), and
    a second call changes nothing. *)
Theorem create_directory_structure_effect w :
  ((create_directory_structure w).1 = Ret tt ↔
   forallb (λ directory, free_for_dir (fs w) (Path directory)) directories = true) ∧
  ((create_directory_structure w).1 = Ret tt →
   (∀ directory q, directory ∈ directories → q `prefix_of` Path directory →
                   is_dir (fs (create_directory_structure w).2) q = true) ∧
   (∀ p, read_text (fs (create_directory_structure w).2) p = read_text (fs w) p) ∧
   (create_directory_structure (create_directory_structure w).2).1 = Ret tt ∧
   fs (create_directory_structure (create_directory_structure w).2).2
   = fs (create_directory_structure w).2).
Proof.
  pose proof (directories_run w) as Hrun.
  assert (forallb (λ directory, free_for_dir (fs w) (Path directory)) directories
          = forallb (op_free (fs w)) (OpMkdir <$> directories)) as -> by reflexivity.
  destruct (run_ops (OpMkdir <$> directories) (fs w)) as [e|d] eqn:Hops.
  - split; [|by rewrite Hrun]. split; [by rewrite Hrun|].
    intros Hfree. destruct (run_ops_ok _ _ directories_consistent Hfree) as [d' Hd']. congruence.
  - destruct Hrun as [Hret Hfs]. split.
    { split; [|done]. intros _. by eapply run_ops_free. }
    intros _. rewrite Hfs. split_and!.
    + intros directory q Hin Hq. apply bool_decide_eq_true.
      rewrite <- Hfs. by apply (directories_made w directory).
    + intros p. unfold read_text.
      pose proof (λ s, run_mkdirs_files _ _ _ p s directories_only_mkdir Hops) as Hfiles.
      destruct (stat d p) as [[s|]|] eqn:Hd.
      * by rewrite (proj1 (Hfiles s) eq_refl).
      * destruct (stat (fs w) p) as [[s|]|] eqn:Hw; [|done..].
        pose proof (proj2 (Hfiles s) eq_refl). congruence.
      * destruct (stat (fs w) p) as [[s|]|] eqn:Hw; [|done..].
        pose proof (proj2 (Hfiles s) eq_refl). congruence.
    + pose proof (directories_run (create_directory_structure w).2) as Hagain.
      rewrite Hfs, (run_ops_idempotent _ _ _ directories_written_once Hops) in Hagain. by destruct Hagain.
    + pose proof (directories_run (create_directory_structure w).2) as Hagain.
      rewrite Hfs, (run_ops_idempotent _ _ _ directories_written_once Hops) in Hagain.
      destruct Hagain as [_ ->]. done.
Qed.

Lemma create_directory_structure_effect_witness :
  (∀ directory q, directory ∈ directories → q `prefix_of` Path directory →
                  is_dir (fs (create_directory_structure stale_readme).2) q = true) ∧
  (∀ p, read_text (fs (create_directory_structure stale_readme).2) p
        = read_text (fs stale_readme) p) ∧
  (create_directory_structure (create_directory_structure stale_readme).2).1 = Ret tt ∧
  fs (create_directory_structure (create_directory_structure stale_readme).2).2
  = fs (create_directory_structure stale_readme).2.
Proof.
  apply (proj2 (create_directory_structure_effect stale_readme)).
  vm_compute; reflexivity.
Defined.

(** X6: once [create_directory_structure] has returned, the parent of
    every file [main] goes on to create is a directory: the [mkdir] in
    [create_file] has nothing left to make in a run of [main]. *)
Theorem directories_cover_files w filepath content :
  (create_directory_structure w).1 = Ret tt →
  OpCreate filepath content ∈ plan →
  is_dir (fs (create_directory_structure w).2) (parent (Path filepath)) = true ∧
  makedirs (fs (create_directory_structure w).2) (parent (Path filepath))
  = inr (fs (create_directory_structure w).2).
Proof.
  intros Hret Hin.
  assert (forallb covered plan = true) as Hall by (vm_compute; reflexivity).
  rewrite forallb_forall in Hall. apply list_elem_of_In, Hall in Hin.
  apply existsb_exists in Hin as (directory & Hdir & Hpre).
  apply list_elem_of_In in Hdir. apply bool_decide_eq_true in Hpre. simpl in Hpre.
  pose proof (directories_made w _ _ Hret Hdir Hpre) as Hd.
  split; [by apply bool_decide_eq_true|]. by apply makedirs_id.
Qed.

Lemma directories_cover_files_witness :
  is_dir (fs (create_directory_structure (fresh_dir [])).2)
         (parent (Path "kubernetes/training-job.yaml")) = true ∧
  makedirs (fs (create_directory_structure (fresh_dir [])).2)
           (parent (Path "kubernetes/training-job.yaml"))
  = inr (fs (create_directory_structure (fresh_dir [])).2).
Proof.
  apply (directories_cover_files (fresh_dir []) "kubernetes/training-job.yaml"
           (format placeholder_template
              "Project B - Docker and Kubernetes Configuration (training-job.yaml section)")).
  - vm_compute; reflexivity.
  - apply (placeholder_in_plan "kubernetes/training-job.yaml"
             "Project B - Docker and Kubernetes Configuration (training-job.yaml section)").
    unfold placeholders. in_list.
Defined.

End directory_structure.

(** ** Runs of [main], however they end *)

Section reaches.
Implicit Types (w : world) (d : gmap string node).

Lemma reaches_eq {A} (m : M A) ops ops' : ops = ops' → reaches m ops → reaches m ops'.
Proof. by intros ->. Qed.

(** A computation that leaves the tree alone and prints no error line. *)
Lemma reaches_still {A} (m : M A) :
  (∀ w, fs (m w).2 = fs w ∧
        ∃ t, trace (m w).2 = trace w ++ t ∧ Forall (λ e, is_error_line e = false) t) →
  reaches m [].
Proof.
  intros H w. destruct (H w) as (Hfs & t & Htr & Hok).
  exists t, []. rewrite Hfs. done.
Qed.

Lemma reaches_ret {A} (a : A) : reaches (mret a) [].
Proof. apply reaches_still. intros w. split; [done|]. exists []. by rewrite app_nil_r. Qed.

Lemma reaches_exit {A} status : reaches (sys_exit (A := A) status) [].
Proof. apply reaches_still. intros w. split; [done|]. exists []. by rewrite app_nil_r. Qed.

Lemma reaches_exists p : reaches (Path_exists p) [].
Proof. apply reaches_still. intros w. split; [done|]. exists []. by rewrite app_nil_r. Qed.

Lemma reaches_input text : reaches (input text) [].
Proof.
  apply reaches_still. intros w. unfold input. cbn [log stdin fs trace].
  destruct (stdin w); (split; [done|]); exists [EvInput text]; by repeat constructor.
Qed.

Lemma reaches_print line :
  PyStr.startswith Colors.FAIL line = false → reaches (print line) [].
Proof.
  intros Hline. apply reaches_still. intros w. split; [done|].
  exists [EvPrint line]. by repeat constructor.
Qed.

Lemma reaches_bind {A B} (m : M A) (k : A → M B) ops1 ops2 :
  reaches m ops1 → (∀ a, reaches (k a) ops2) → reaches (m ≫= k) (ops1 ++ ops2).
Proof.
  intros Hm Hk w. destruct (Hm w) as (t1 & made1 & Htr1 & Hok1 & Hpre1 & Hrun1 & Hall1).
  rewrite bind_run. destruct (m w) as [[a|e|status] w1]; cbn [fst snd] in *.
  - rewrite (Hall1 a eq_refl) in *.
    destruct (Hk a w1) as (t2 & made2 & Htr2 & Hok2 & Hpre2 & Hrun2 & Hall2).
    exists (t1 ++ t2), (ops1 ++ made2). split_and!.
    + by rewrite Htr2, Htr1, app_assoc.
    + by apply Forall_app.
    + by apply prefix_app.
    + by rewrite run_ops_app, Hrun1.
    + intros b Hb. by rewrite (Hall2 b Hb).
  - exists t1, made1. split_and!; [done..|by apply prefix_app_r|done|done].
  - exists t1, made1. split_and!; [done..|by apply prefix_app_r|done|done].
Qed.

Lemma reaches_still_bind {A B} (m : M A) (k : A → M B) ops :
  reaches m [] → (∀ a, reaches (k a) ops) → reaches (m ≫= k) ops.
Proof. apply (reaches_bind m k []). Qed.

Lemma reaches_for_each {A} (xs : list A) (body : A → M unit) (f : A → op) :
  (∀ x, reaches (body x) [f x]) → reaches (for_ xs body) (f <$> xs).
Proof.
  intros Hbody. induction xs as [|x xs IH]; simpl.
  - apply reaches_ret.
  - apply (reaches_bind _ _ [f x]); [apply Hbody|by intros _].
Qed.

Lemma reaches_print_header text : reaches (print_header text) [].
Proof.
  unfold print_header.
  repeat (apply reaches_still_bind; [by apply reaches_print|intros _]).
  by apply reaches_print.
Qed.

Lemma reaches_print_success text : reaches (print_success text) [].
Proof. by apply reaches_print. Qed.

Lemma reaches_print_info text : reaches (print_info text) [].
Proof. by apply reaches_print. Qed.

Lemma reaches_print_warning text : reaches (print_warning text) [].
Proof. by apply reaches_print. Qed.

Lemma reaches_mkdir directory : reaches (Path_mkdir (Path directory)) [OpMkdir directory].
Proof.
  intros w. unfold Path_mkdir. cbn [log fs stdin trace].
  destruct (makedirs (fs w) (Path directory)) as [e|d] eqn:Hm.
  - exists [EvMkdir (Path directory)], []. cbn [fst snd fs trace].
    split_and!; [done|by repeat constructor|apply prefix_nil|done|done].
  - exists [EvMkdir (Path directory)], [OpMkdir directory]. cbn [fst snd fs trace].
    split_and!; [done|by repeat constructor|done| |done]. simpl. by rewrite Hm.
Qed.

Lemma reaches_create_file filepath content :
  reaches (create_file filepath content) [OpCreate filepath content].
Proof.
  intros w. rewrite create_file_run.
  destruct (makedirs (fs w) (parent (Path filepath))) as [e|d1] eqn:Hm.
  { eexists _, []. cbn [fst snd fs trace].
    split_and!; [done|by repeat constructor|apply prefix_nil|done|done]. }
  destruct (write_at d1 (Path filepath) content) as [e|d2] eqn:Hw.
  { eexists _, []. cbn [fst snd fs trace].
    split_and!; [done|by repeat constructor|apply prefix_nil|done|done]. }
  eexists _, [OpCreate filepath content]. cbn [fst snd fs trace].
  split_and!; [done|by repeat constructor|done| |done]. simpl. by rewrite Hm, Hw.
Qed.

Lemma reaches_create_directory_structure :
  reaches create_directory_structure (OpMkdir <$> directories).
Proof.
  eapply reaches_eq; [apply app_nil_r|].
  apply reaches_bind; [|intros _; apply reaches_print_success].
  apply reaches_for_each. intros directory. apply reaches_mkdir.
Qed.

Lemma reaches_files :
  reaches (for_ FILES (λ '(filepath, content), create_file filepath content))
          ((λ item, OpCreate item.1 item.2) <$> FILES).
Proof. apply reaches_for_each. intros [filepath content]. apply reaches_create_file. Qed.

Lemma reaches_placeholders :
  reaches (for_ placeholders
                (λ '(filepath, description), create_placeholder_note filepath description))
          (placeholder_op <$> placeholders).
Proof.
  apply reaches_for_each. intros [filepath description]. apply reaches_create_file.
Qed.

(** However a run ends, the tree it leaves is what a prefix of the plan
    makes of the tree it started on. *)
Lemma main_reaches : reaches main plan.
Proof.
  unfold main.
  eapply reaches_eq; [|
    apply reaches_still_bind; [apply reaches_print_header|intros _];
    apply reaches_still_bind; [apply reaches_exists|intros git];
    apply reaches_still_bind;
      [ destruct git; cbn [negb]; [apply reaches_ret|];
        apply reaches_still_bind; [apply reaches_print_warning|intros _];
        apply reaches_still_bind; [apply reaches_print_info|intros _];
        apply reaches_still_bind; [apply reaches_print_info|intros _];
        apply reaches_still_bind; [by apply reaches_print|intros _];
        apply reaches_still_bind; [apply reaches_input|intros response];
        destruct (String.eqb (PyStr.lower response) "y"); cbn [negb];
          [apply reaches_ret|apply reaches_exit]
      | intros _ ];
    apply reaches_still_bind; [apply reaches_print_info|intros _];
    eapply reaches_bind; [apply reaches_create_directory_structure|intros _];
    apply reaches_still_bind; [by apply reaches_print|intros _];
    apply reaches_still_bind; [apply reaches_print_info|intros _];
    eapply reaches_bind; [apply reaches_files|intros _];
    apply reaches_still_bind; [by apply reaches_print|intros _];
    apply reaches_still_bind; [apply reaches_print_info|intros _];
    eapply reaches_bind; [apply reaches_placeholders|intros _];
    apply reaches_still_bind; [by apply reaches_print|intros _];
    eapply reaches_bind; [apply reaches_create_file|intros _];
    eapply reaches_bind; [apply reaches_create_file|intros _];
    apply reaches_still_bind; [by apply reaches_print|intros _];
    apply reaches_still_bind; [apply reaches_print_header|intros _];
    repeat (apply reaches_still_bind; [by apply reaches_print|intros _]);
    by apply reaches_print ].
  reflexivity.
Qed.

End reaches.

(** ** More on what [main] leaves behind *)

Section main_more.
Implicit Types (w : world) (d : gmap string node).

(** X7: after a run that completed, every path of the placeholder table
    holds exactly the rendered template, whatever it held before: what a
    user had put there is gone. *)
Theorem placeholders_overwritten w filepath description :
  (main w).1 = Ret tt → (filepath, description) ∈ placeholders →
  read_text (fs (main w).2) (Path filepath)
  = Some (format placeholder_template description).
Proof.
  intros Hret Hin. apply main_created; [done|]. by apply placeholder_in_plan.
Qed.

Lemma placeholders_overwritten_witness :
  read_text (fs filled_in) (Path "training/src/train_distributed.py") = Some "import torch" ∧
  read_text (fs (main filled_in).2) (Path "training/src/train_distributed.py")
  = Some (format placeholder_template
            "Project B - Complete Distributed Training Implementation").
Proof.
  split; [vm_compute; reflexivity|].
  apply (placeholders_overwritten filled_in).
  - vm_compute; reflexivity.
  - unfold placeholders. in_list.
Defined.

(** X8: after a run that completed, [docs/SETUP_INSTRUCTIONS.md] and
    [docs/QUICK_REFERENCE.md] hold exactly the two documents [main] builds
    last. *)
Theorem documents_written w :
  (main w).1 = Ret tt →
  read_text (fs (main w).2) (Path "docs/SETUP_INSTRUCTIONS.md") = Some setup_instructions ∧
  read_text (fs (main w).2) (Path "docs/QUICK_REFERENCE.md") = Some quick_ref.
Proof.
  intros Hret.
  split; (apply main_created; [done|]); unfold plan; rewrite !elem_of_app;
    do 3 right; in_list.
Qed.

Lemma documents_written_witness :
  read_text (fs (main git_repository).2) (Path "docs/SETUP_INSTRUCTIONS.md")
  = Some setup_instructions ∧
  read_text (fs (main git_repository).2) (Path "docs/QUICK_REFERENCE.md") = Some quick_ref.
Proof. apply (documents_written git_repository). vm_compute; reflexivity. Defined.

(** X9: there is no rollback and no half-made step: however a run ends, the
    tree it leaves is what the first operations of the plan, up to some
    point, make of the tree it started on; the point is the end of the plan
    when the run returns. *)
Theorem run_leaves_a_prefix w :
  ∃ made, made `prefix_of` plan ∧
          run_ops made (fs w) = inr (fs (main w).2) ∧
          ((main w).1 = Ret tt → made = plan).
Proof.
  destruct (main_reaches w) as (t & made & _ & _ & Hpre & Hrun & Hall).
  exists made. split_and!; [done..|]. apply Hall.
Qed.

Lemma final_content_not_target ops p :
  (∀ filepath content, OpCreate filepath content ∈ ops → Path filepath ≠ p) →
  final_content ops p = None.
Proof.
  induction ops as [|o ops IH]; intros H; [done|]. simpl.
  rewrite IH by (intros f c Hin; apply (H f c); by right).
  destruct o as [directory|filepath content]; [done|].
  rewrite decide_False; [done|]. apply (H filepath content). by left.
Qed.

(** X10: no run removes an entry or changes its kind, however it ends: a
    directory stays a directory, a regular file stays a regular file, and
    one whose path is none of the files of the plan keeps its contents. *)
Theorem run_keeps_entries w p :
  (stat (fs w) p = Some EDir → stat (fs (main w).2) p = Some EDir) ∧
  (∀ s, stat (fs w) p = Some (EFile s) →
        ∃ s', stat (fs (main w).2) p = Some (EFile s') ∧
              ((∀ filepath content, OpCreate filepath content ∈ plan → Path filepath ≠ p) →
               s' = s)).
Proof.
  destruct (main_reaches w) as (t & made & _ & _ & [rest Hpre] & Hrun & _).
  split.
  - by apply (run_ops_dir_stable made).
  - intros s Hs. destruct (run_ops_file_kept _ _ _ _ _ Hrun Hs) as [s' Hs'].
    exists s'. split; [done|]. intros Hnot.
    assert (final_content made p = None) as Hnone.
    { apply final_content_not_target. intros f c Hin. apply (Hnot f c).
      rewrite Hpre. apply elem_of_app. by left. }
    pose proof (run_ops_file_stable _ _ _ _ _ Hrun Hnone Hs). congruence.
Qed.

Lemma run_keeps_entries_witness :
  ∃ s', stat (fs (main filled_in).2) (Path "notes.txt") = Some (EFile s') ∧
        ((∀ filepath content,
            OpCreate filepath content ∈ plan → Path filepath ≠ Path "notes.txt") →
         s' = "keep me").
Proof.
  apply (proj2 (run_keeps_entries filled_in (Path "notes.txt")) "keep me").
  vm_compute; reflexivity.
Defined.

(** X11: with no [.git] entry and nothing to read on standard input, as
    when the script itself is piped to the interpreter, the prompt raises
    [EOFError]: the run ends with status 1 after the one [input] call,
    before any file-system call, and the tree is as it was. *)
Theorem prompt_at_end_of_input w :
  has_git w = false → stdin w = [] →
  (main w).1 = Raise EOFError ∧ exit_status (main w).1 = 1%Z ∧
  fs (main w).2 = fs w ∧
  ∃ t, trace (main w).2 = trace w ++ t ∧ fs_events t = [] ∧ inputs t = [EvInput prompt].
Proof.
  intros Hg Hin. destruct (main_behaves w) as (t & Htr & H).
  rewrite Hg, Hin in H. destruct H as (Hi & _ & Hout & Hfs & Hev).
  rewrite Hout. split_and!; [done..|]. eauto.
Qed.

Lemma prompt_at_end_of_input_witness :
  (main (fresh_dir [])).1 = Raise EOFError ∧ exit_status (main (fresh_dir [])).1 = 1%Z ∧
  fs (main (fresh_dir [])).2 = fs (fresh_dir []) ∧
  ∃ t, trace (main (fresh_dir [])).2 = trace (fresh_dir []) ++ t ∧
       fs_events t = [] ∧ inputs t = [EvInput prompt].
Proof. apply (prompt_at_end_of_input (fresh_dir [])); vm_compute; reflexivity. Defined.




(** X13: a run completes exactly when there is a [.git] entry or the answer
    at the prompt is [y] or [Y], and no regular file lies where the layout
    has a directory and no directory where it has a file. *)
Theorem run_completes_iff w :
  (main w).1 = Ret tt ↔
  (is_Some (fs w !! ".git") ∨
   ∃ response rest, stdin w = response :: rest ∧ (response = "y" ∨ response = "Y")) ∧
  Forall (λ directory, free_for_dir (fs w) (Path directory) = true) directories ∧
  (∀ filepath content, OpCreate filepath content ∈ plan →
     free_for_dir (fs w) (parent (Path filepath)) = true ∧
     is_dir (fs w) (Path filepath) = false).
Proof.
  assert (has_git w = true ↔ is_Some (fs w !! ".git")) as Hgit.
  { unfold has_git, exists_. change (Path ".git") with [".git"]. simpl.
    rewrite bool_decide_eq_true.
    destruct (fs w !! ".git") as [[content|children]|]; simpl;
      (split; [intros [? ?]|intros [? ?]]; by eauto). }
  assert (proceeds w = true ↔
          is_Some (fs w !! ".git") ∨
          ∃ response rest, stdin w = response :: rest ∧ (response = "y" ∨ response = "Y"))
    as Hp.
  { rewrite proceeds_cases, <- Hgit. split.
    - intros [?|(_ & response & rest & Hin & Hy)]; [by left|].
      right. exists response, rest. split; [done|]. by apply lower_y, String.eqb_eq.
    - intros [?|(response & rest & Hin & Hy)]; [by left|].
      destruct (has_git w); [by left|]. right. split; [done|].
      exists response, rest. split; [done|]. by apply String.eqb_eq, lower_y. }
  assert (fits (fs w) = true ↔
          Forall (λ directory, free_for_dir (fs w) (Path directory) = true) directories ∧
          (∀ filepath content, OpCreate filepath content ∈ plan →
             free_for_dir (fs w) (parent (Path filepath)) = true ∧
             is_dir (fs w) (Path filepath) = false)) as Hfit.
  { unfold fits. rewrite forallb_forall. split.
    - intros H. split.
      + apply Forall_forall. intros directory Hin.
        apply (H (OpMkdir directory)), list_elem_of_In. by apply directory_in_plan.
      + intros filepath content Hin. apply list_elem_of_In, H in Hin. simpl in Hin.
        by apply andb_true_iff in Hin as [? ?%negb_true_iff].
    - intros [Hdirs Hfiles] o Hin. apply list_elem_of_In in Hin.
      destruct o as [directory|filepath content]; simpl.
      + rewrite Forall_forall in Hdirs. apply Hdirs.
        unfold plan in Hin. rewrite !elem_of_app, !list_elem_of_fmap in Hin.
        destruct Hin as [(x & [= ->] & Hx)|[(x & Hx & _)|[(x & Hx & _)|Hin]]];
          [done|done|done|].
        apply elem_of_cons in Hin as [Hin|Hin]; [done|].
        apply elem_of_cons in Hin as [Hin|Hin]; [done|]. by apply elem_of_nil in Hin.
      + destruct (Hfiles _ _ Hin) as [-> ->]. done. }
  rewrite main_returns_iff, Hp, Hfit. done.
Qed.

(** X14: a run reads at most one line of standard input: none when there is
    a [.git] entry, the first line otherwise, and it makes at most one
    [input] call. *)
Theorem run_reads_one_line w :
  stdin (main w).2 = (if has_git w then stdin w else tail (stdin w)) ∧
  ∃ t, trace (main w).2 = trace w ++ t ∧
       inputs t = (if has_git w then [] else [EvInput prompt]).
Proof.
  destruct (main_behaves w) as (t & Htr & H).
  destruct (has_git w); destruct H as (Hi & Hin & _); eauto.
Qed.

(** X15: [print_error] prints a line in its colour, and no run of [main]
    prints such a line, however it ends: failures are not reported through
    [print_error]. *)
Theorem run_prints_no_error_line w :
  (∀ text, ∃ line, trace (print_error text w).2 = trace w ++ [EvPrint line] ∧
                   is_error_line (EvPrint line) = true) ∧
  ∃ t, trace (main w).2 = trace w ++ t ∧ Forall (λ e, is_error_line e = false) t.
Proof.
  split.
  - intros text. eexists. split; reflexivity.
  - destruct (main_reaches w) as (t & made & Htr & Hok & _). eauto.
Qed.

End main_more.

(** ** The banner *)

Section banner.
Implicit Types (s text : string) (w : world).






End banner.

(** ** Nothing outside the layout *)

Section layout.
Implicit Types (w : world) (d : gmap string node) (p : path).

(** What a sequence of operations adds to the tree is a file it writes or
    a directory on the way to one it asks for. *)
Lemma run_ops_new_entry ops d d' p e :
  run_ops ops d = inr d' → stat d p = None → stat d' p = Some e →
  (e = EDir ∧ ∃ o, o ∈ ops ∧ p `prefix_of` dir_target o) ∨
  (∃ s filepath content,
     e = EFile s ∧ OpCreate filepath content ∈ ops ∧ Path filepath = p).
Proof.
  revert d. induction ops as [|o ops IH]; intros d Hrun Hnone Hnew; simpl in Hrun.
  { injection Hrun as <-. congruence. }
  destruct (run_op o d) as [e1|d1] eqn:Ho; [done|].
  destruct (stat d1 p) as [e1|] eqn:H1.
  - assert ((e1 = EDir ∧ p `prefix_of` dir_target o) ∨
            (∃ s filepath content, e1 = EFile s ∧ o = OpCreate filepath content ∧
                                   Path filepath = p)) as [[-> Hp]|(s & f & c & -> & -> & Hp)].
    { destruct o as [directory|filepath content]; simpl.
      - rewrite (run_mkdir_stat _ _ _ _ Ho) in H1. case_decide; [|congruence].
        left. split; [congruence|done].
      - rewrite (run_create_stat _ _ _ _ _ Ho) in H1. repeat case_decide; [| |congruence].
        + right. exists content, filepath, content. split_and!; congruence.
        + left. split; [congruence|done]. }
    + left. rewrite (run_ops_dir_stable _ _ _ _ Hrun H1) in Hnew. injection Hnew as <-.
      split; [done|]. exists o. split; [by left|done].
    + right. destruct (run_ops_file_kept _ _ _ _ _ Hrun H1) as [s' Hs'].
      exists s', f, c. split_and!; [congruence|by left|done].
  - destruct (IH _ Hrun H1 Hnew) as [(-> & o' & Hin & Hp)|(s & f & c & -> & Hin & Hp)].
    + left. split; [done|]. exists o'. split; [by right|done].
    + right. exists s, f, c. split_and!; [done|by right|done].
Qed.

(** X17: a run makes nothing outside its layout, however it ends: an entry
    that was not there before is a directory of the list of
    [create_directory_structure] or an ancestor of one, or a regular file
    at one of the paths of the plan. *)
Theorem run_creates_only_layout w p e :
  stat (fs w) p = None → stat (fs (main w).2) p = Some e →
  (e = EDir ∧ ∃ directory, directory ∈ directories ∧ p `prefix_of` Path directory) ∨
  (∃ s filepath content,
     e = EFile s ∧ OpCreate filepath content ∈ plan ∧ Path filepath = p).
Proof.
  intros Hnone Hnew.
  destruct (main_reaches w) as (t & made & _ & _ & [rest Hpre] & Hrun & _).
  assert (∀ o, o ∈ made → o ∈ plan) as Hsub.
  { intros o Hin. rewrite Hpre. apply elem_of_app. by left. }
  destruct (run_ops_new_entry _ _ _ _ _ Hrun Hnone Hnew)
    as [(-> & o & Hin & Hp)|(s & f & c & -> & Hin & Hp)].
  - left. split; [done|].
    assert (forallb covered plan = true) as Hall by (vm_compute; reflexivity).
    rewrite forallb_forall in Hall. apply Hsub, list_elem_of_In, Hall in Hin.
    apply existsb_exists in Hin as (directory & Hdir & Hcov).
    apply list_elem_of_In in Hdir. apply bool_decide_eq_true in Hcov.
    exists directory. split; [done|]. by etrans.
  - right. exists s, f, c. split_and!; [done|by apply Hsub|done].
Qed.

Lemma run_creates_only_layout_witness :
  (EDir = EDir ∧ ∃ directory, directory ∈ directories ∧ Path "monitoring" `prefix_of` Path directory) ∨
  (∃ s filepath content,
     EDir = EFile s ∧ OpCreate filepath content ∈ plan ∧ Path filepath = Path "monitoring").
Proof.
  apply (run_creates_only_layout docs_is_a_file (Path "monitoring") EDir);
    vm_compute; reflexivity.
Defined.

End layout.
